(** * gcs_upload: the upload orchestrator of [upload/gcs_upload.py]

    A shallow embedding of [GCSUploader.upload_file],
    [GCSUploader.upload_directory] and [main], together with the parts of
    their environment they observe: [pathlib] paths, the local file system,
    and the Google Cloud Storage client.

    The environment is kept general.  The host ([Host]) fixes the path
    flavour, the file-system tree and the MIME table; the storage service
    ([Env]) is an arbitrary state machine whose operations may fail, so a
    statement proved for every [Env] covers every behaviour of the service,
    concurrent writers included.  Every remote call is logged as an [event],
    which is how "before contacting the Storage Client" and "without
    attempting the upload" are stated. *)

From Stdlib Require Import List String Ascii ZArith NArith Bool Lia.
Import ListNotations.
Open Scope string_scope.
Set Warnings "-notation-for-abbreviation".

(* ================================================================== *)
(** * Python values used by the script *)

(** The exception classes the script raises or catches.  All of them are
    subclasses of [Exception]; [GoogleCloudError] stands for that class and
    its subclasses (precondition failed, forbidden, not found, ...).
    [SystemExit] is not an [Exception] and is kept apart, see [outcome]. *)
Inductive exn_class :=
| FileNotFoundError
| ValueError
| NotImplementedError
| IndexError
| AttributeError
| OSError
| GoogleCloudError
| OtherException.

(** An exception value: its class and [str(e)]. *)
Record exn := mkExn { exn_cls : exn_class; exn_str : string }.

Definition exn_class_eqb (a b : exn_class) : bool :=
  match a, b with
  | FileNotFoundError, FileNotFoundError
  | ValueError, ValueError
  | NotImplementedError, NotImplementedError
  | IndexError, IndexError
  | AttributeError, AttributeError
  | OSError, OSError
  | GoogleCloudError, GoogleCloudError
  | OtherException, OtherException => true
  | _, _ => false
  end.

(** [Optional[Dict[str, str]]] *)
Definition metadata_t := option (list (string * string)).

(** Truthiness of [metadata] in [if metadata:]. *)
Definition truthy_metadata (m : metadata_t) : bool :=
  match m with
  | Some (_ :: _) => true
  | _ => false
  end.

(** [s.replace(a, b)] for one-character [a] and [b]. *)
Fixpoint replace_char (a b : ascii) (s : string) : string :=
  match s with
  | EmptyString => EmptyString
  | String c s' => String (if Ascii.eqb c a then b else c) (replace_char a b s')
  end.

Definition backslash : ascii := "\"%char.
Definition slash : ascii := "/"%char.

(** [c in s] for a character. *)
Fixpoint has_char (c : ascii) (s : string) : bool :=
  match s with
  | EmptyString => false
  | String d s' => Ascii.eqb d c || has_char c s'
  end.

(** [p in s] for a substring. *)
Fixpoint has_infix (p s : string) : bool :=
  String.prefix p s ||
  match s with
  | EmptyString => false
  | String _ s' => has_infix p s'
  end.

(* ================================================================== *)
(** * pathlib *)

(** A pure path: the anchor (drive and root, empty for a relative path) and
    the components after it. *)
Record Path := mkPath { anchor : string; parts : list string }.

(** The file-system tree.  A symbolic link carries what it resolves to
    ([None] when it dangles): the node it leads to and, innermost first,
    the entries of the directories above that node, which is where [".."]
    leads from inside a linked directory.  [Special] is a fifo, socket or
    device. *)
#[local] Unset Elimination Schemes.
Inductive node :=
| File (st_size : N)
| Dir (entries : list (string * node))
| Symlink (target : option (list (list (string * node)) * node))
| Special.
#[local] Set Elimination Schemes.

(** The host: path flavour, file system, working directory, MIME table. *)
Record Host := mkHost {
  (** [os.sep] *)
  sep : string;
  (** [os.altsep] *)
  altsep : option string;
  (** [Path(s)]: splitting of a string into anchor and components *)
  parse_path : string -> Path;
  (** the flavour's compiled [fnmatch] pattern, applied to one name *)
  fnmatch : string -> string -> bool;
  (** root directory of each anchor *)
  fs_root : string -> option node;
  (** [Path.cwd()], absolute *)
  cwd : Path;
  (** [Path.resolve()]: absolute, normalised, symlink-free *)
  resolve : Path -> Path;
  (** first component of [mimetypes.guess_type] *)
  guess_type : string -> option string;
  (** [Path(__file__).parent.resolve()] *)
  SCRIPT_DIR : Path
}.

Module Pathlib.

(** [str(p)] *)
Definition str (h : Host) (p : Path) : string :=
  match anchor p, parts p with
  | EmptyString, [] => "."
  | a, ps => a ++ String.concat (sep h) ps
  end.

(** [p.name] *)
Definition name (p : Path) : string := last (parts p) "".

(** [a / b] *)
Definition joinpath (a b : Path) : Path :=
  if (anchor b =? "")%string
  then mkPath (anchor a) (parts a ++ parts b)%list
  else b.

(** [a / s] for a string [s] *)
Definition joinstr (h : Host) (a : Path) (s : string) : Path :=
  joinpath a (parse_path h s).

Fixpoint strip_prefix (pre l : list string) : option (list string) :=
  match pre, l with
  | [], _ => Some l
  | x :: pre', y :: l' => if (x =? y)%string then strip_prefix pre' l' else None
  | _ :: _, [] => None
  end.

(** [p.relative_to(other)]; raises [ValueError] when [p] is not below
    [other]. *)
Definition relative_to (h : Host) (p other : Path) : exn + Path :=
  if (anchor p =? anchor other)%string then
    match strip_prefix (parts other) (parts p) with
    | Some rest => inr (mkPath "" rest)
    | None => inl (mkExn ValueError
                (str h p ++ " is not in the subpath of " ++ str h other))
    end
  else inl (mkExn ValueError
         (str h p ++ " is not in the subpath of " ++ str h other)).

(** ** File-system queries *)

(** Follow a chain of symbolic links. *)
Fixpoint follow (n : node) : option node :=
  match n with
  | Symlink (Some (_, t)) => follow t
  | Symlink None => None
  | _ => Some n
  end.

Definition node_exists (n : node) : bool :=
  match follow n with Some _ => true | None => false end.

Definition node_is_file (n : node) : bool :=
  match follow n with Some (File _) => true | _ => false end.

Definition node_is_dir (n : node) : bool :=
  match follow n with Some (Dir _) => true | _ => false end.

Definition node_size (n : node) : option N :=
  match follow n with Some (File sz) => Some sz | _ => None end.

Fixpoint assoc (k : string) (es : list (string * node)) : option node :=
  match es with
  | [] => None
  | (k', v) :: es' => if (k =? k')%string then Some v else assoc k es'
  end.

(** A position in the tree: the entries of the directories above it,
    innermost first, and the node itself. *)
Definition loc := (list (list (string * node)) * node)%type.

(** The directory a position stands for, links followed: its entries and
    the directories above it.  Through a link these are the directories
    above the target. *)
Fixpoint enter (stack : list (list (string * node))) (n : node)
  : option (list (list (string * node)) * list (string * node)) :=
  match n with
  | Dir es => Some (stack, es)
  | Symlink (Some (st, t)) => enter st t
  | _ => None
  end.

(** One step down ([name]) or up ([".."]) from a directory.  The parent of
    the root is the root. *)
Definition child (l : loc) (nm : string) : option loc :=
  let '(stack, cur) := l in
  match enter stack cur with
  | Some (st, es) =>
      if (nm =? "..")%string then
        Some (match st with
              | [] => ([], Dir es)
              | p :: st' => (st', Dir p)
              end)
      else
        match assoc nm es with
        | Some c => Some (es :: st, c)
        | None => None
        end
  | None => None
  end.

Fixpoint walk (l : loc) (ps : list string) : option loc :=
  match ps with
  | [] => Some l
  | p :: ps' =>
      match child l p with
      | Some l' => walk l' ps'
      | None => None
      end
  end.

(** A relative path is looked up from the working directory. *)
Definition absolute (h : Host) (p : Path) : Path :=
  if (anchor p =? "")%string then joinpath (cwd h) p else p.

Definition locate (h : Host) (p : Path) : option loc :=
  let q := absolute h p in
  match fs_root h (anchor q) with
  | Some r => walk ([], r) (parts q)
  | None => None
  end.

(** [p.exists()] *)
Definition exists_ (h : Host) (p : Path) : bool :=
  match locate h p with Some (_, n) => node_exists n | None => false end.

(** [p.is_file()] *)
Definition is_file (h : Host) (p : Path) : bool :=
  match locate h p with Some (_, n) => node_is_file n | None => false end.

(** [p.is_dir()] *)
Definition is_dir (h : Host) (p : Path) : bool :=
  match locate h p with Some (_, n) => node_is_dir n | None => false end.

(** [p.stat().st_size]; [stat] raises when the path is missing.  Only the
    size of regular files is recorded in the tree. *)
Definition stat_st_size (h : Host) (p : Path) : exn + N :=
  match locate h p with
  | Some (_, n) =>
      match node_size n with
      | Some sz => inr sz
      | None => inl (mkExn OSError ("cannot stat: " ++ str h p))
      end
  | None => inl (mkExn FileNotFoundError ("No such file or directory: " ++ str h p))
  end.

End Pathlib.

(* ================================================================== *)
(** * [Path.glob] and [Path.rglob]

    The selectors of CPython's [pathlib] (3.11): a pattern is split into
    components, with an empty component appended when the pattern ends with
    a separator; a component is the recursive wildcard, a wildcard pattern
    matched with [fnmatch] against the names of a directory, a precise
    name, or the empty component that ends the selection.  All components
    but the last select directories only. *)

Module Glob.
Import Pathlib.

(** [_is_wildcard_pattern] *)
Definition is_wildcard_pattern (pat : string) : bool :=
  has_char "*"%char pat || has_char "?"%char pat || has_char "["%char pat.

Definition is_recursive (pat : string) : bool := (pat =? "**")%string.

(** [pattern[-1]] *)
Fixpoint last_char (s : string) : option ascii :=
  match s with
  | EmptyString => None
  | String c EmptyString => Some c
  | String _ s' => last_char s'
  end.

(** [pattern and pattern[-1] in (sep, altsep)] *)
Definition ends_with_separator (h : Host) (pattern : string) : bool :=
  match last_char pattern with
  | Some c =>
      (String c "" =? sep h)%string
      || match altsep h with
         | Some alt => (String c "" =? alt)%string
         | None => false
         end
  | None => false
  end.

(** The components handed to [_make_selector]. *)
Definition pattern_parts (h : Host) (pattern : string) : list string :=
  (parts (parse_path h pattern)
   ++ (if ends_with_separator h pattern then [""] else []))%list.

(** [_make_selector], down the chain of successors: an empty component
    ends the chain; a component that contains the recursive wildcard
    without being equal to it is rejected. *)
Fixpoint check_components (pats : list string) : option exn :=
  match pats with
  | [] => None
  | p :: rest =>
      if (p =? "")%string then None
      else if is_recursive p then check_components rest
      else if has_infix "**" p then
        Some (mkExn ValueError
                "Invalid pattern: '**' can only be an entire path component")
      else check_components rest
  end.

(** [_make_selector(pattern_parts)] followed by [selector.select_from]:
    no component at all is an index error, and the selector of an empty
    first component has no [select_from]. *)
Definition make_selector (pats : list string) : option exn :=
  match pats with
  | [] => Some (mkExn IndexError "tuple index out of range")
  | p :: _ =>
      if (p =? "")%string then
        Some (mkExn AttributeError
                "'_TerminatingSelector' object has no attribute 'select_from'")
      else check_components pats
  end.

(** A selected entry: where it is in the tree and its path relative to the
    directory the glob started from. *)
Definition hit := (loc * list string)%type.

(** [_RecursiveWildcardSelector._iterate_directories]: the directory itself,
    then, in directory order, every sub-directory that is not a symbolic
    link, recursively. *)
Fixpoint iter_dirs (stack : list (list (string * node))) (cur : node)
    (rel : list string) : list hit :=
  ((stack, cur), rel) ::
  match cur with
  | Dir es =>
      flat_map (fun e : string * node =>
                  let (nm, c) := e in
                  match c with
                  | Dir _ => iter_dirs (es :: stack) c (rel ++ [nm])%list
                  | _ => []
                  end) es
  | _ => []
  end.

Definition iterate_directories (x : hit) : list hit :=
  let '((stack, cur), rel) := x in
  match enter stack cur with
  | Some (st, es) => iter_dirs st (Dir es) rel
  | None => []
  end.

(** The [yielded] set of the recursive selector: a path is produced once,
    at its first occurrence. *)
Fixpoint dedup (seen : list (list string)) (l : list hit) : list hit :=
  match l with
  | [] => []
  | x :: l' =>
      if in_dec (list_eq_dec string_dec) (snd x) seen then dedup seen l'
      else x :: dedup (snd x :: seen) l'
  end.

(** [_select_from] of the selector built from [pats]. *)
Fixpoint select_from (h : Host) (pats : list string) (x : hit) : list hit :=
  match pats with
  | [] => [x]                                   (* _TerminatingSelector *)
  | pat :: child_parts =>
      if (pat =? "")%string then [x]            (* _TerminatingSelector *)
      else
      let dironly := match child_parts with [] => false | _ => true end in
      let '((stack, cur), rel) := x in
      if is_recursive pat then                  (* _RecursiveWildcardSelector *)
        dedup [] (flat_map (select_from h child_parts) (iterate_directories x))
      else if is_wildcard_pattern pat then      (* _WildcardSelector *)
        match enter stack cur with
        | Some (st, es) =>
            flat_map (fun e : string * node =>
                        if (negb dironly || node_is_dir (snd e))
                           && fnmatch h pat (fst e)
                        then select_from h child_parts
                               ((es :: st, snd e), (rel ++ [fst e])%list)
                        else []) es
        | None => []
        end
      else                                      (* _PreciseSelector *)
        match child (stack, cur) pat with
        | Some (st, c) =>
            if (if dironly then node_is_dir c else node_exists c)
            then select_from h child_parts ((st, c), (rel ++ [pat])%list)
            else []
        | None => []
        end
  end.

(** [selector.select_from(self)]: nothing unless [self] is a directory. *)
Definition select (h : Host) (pats : list string) (d : Path) : list Path :=
  match locate h d with
  | Some (stack, n) =>
      if node_is_dir n then
        map (fun x : hit => mkPath (anchor d) (parts d ++ snd x)%list)
            (select_from h pats ((stack, n), []))
      else []
  | None => []
  end.

(** [d.glob(pattern)] *)
Definition glob (h : Host) (d : Path) (pattern : string) : exn + list Path :=
  if (pattern =? "")%string then
    inl (mkExn ValueError "Unacceptable pattern: ''")
  else
    let pp := parse_path h pattern in
    if negb (anchor pp =? "")%string then
      inl (mkExn NotImplementedError "Non-relative patterns are unsupported")
    else
      match make_selector (pattern_parts h pattern) with
      | Some e => inl e
      | None => inr (select h (pattern_parts h pattern) d)
      end.

(** [d.rglob(pattern)] *)
Definition rglob (h : Host) (d : Path) (pattern : string) : exn + list Path :=
  let pp := parse_path h pattern in
  if negb (anchor pp =? "")%string then
    inl (mkExn NotImplementedError "Non-relative patterns are unsupported")
  else
    match make_selector ("**" :: pattern_parts h pattern) with
    | Some e => inl e
    | None => inr (select h ("**" :: pattern_parts h pattern) d)
    end.

End Glob.

(* ================================================================== *)
(** * The storage service and the effect monad *)

(** [UploadResult]: the dictionaries [upload_file] and [upload_directory]
    build, by their ["status"]. *)
Inductive UploadResult :=
| Success (source destination bucket : string) (size_bytes : N)
          (content_type gs_uri : string) (public_url : option string)
          (uploaded_at : string)
| Skipped (reason destination : string)
| Error (source error : string).

(** [r.get("status")] *)
Definition status (r : UploadResult) : string :=
  match r with
  | Success _ _ _ _ _ _ _ _ => "success"
  | Skipped _ _ => "skipped"
  | Error _ _ => "error"
  end.

(** What [list_blobs] reads from a blob. *)
Record BlobInfo := mkBlobInfo {
  blob_name : string;
  blob_size : option Z;
  blob_content_type : option string;
  blob_updated : option string
}.

(** An entry of the list [list_blobs] returns. *)
Record BlobSummary := mkBlobSummary {
  bs_name : string;
  bs_size : option Z;
  bs_content_type : option string;
  bs_updated : option string;
  bs_gs_uri : string
}.

(** A request sent to the storage service, with its answer. *)
Inductive event :=
| EvExists (bucket name : string) (answer : exn + bool)
| EvUpload (bucket name filename content_type : string)
           (if_generation_match : option Z) (metadata : metadata_t)
           (answer : exn + unit)
| EvMakePublic (bucket name : string) (answer : exn + unit)
| EvListBuckets (answer : exn + list string)
| EvListBlobs (bucket : string) (prefix : option string) (max_results : Z)
              (answer : exn + list BlobInfo).

Definition is_upload (e : event) : bool :=
  match e with EvUpload _ _ _ _ _ _ _ => true | _ => false end.

(** The world outside the process: the storage service behind
    [google.cloud.storage], the credential loader and the clock.  [St] is
    its state; every operation may fail and may change the state. *)
Record Env (St : Type) := mkEnv {
  (** [Credentials.from_service_account_file] and [storage.Client] *)
  connect : string -> option string -> St -> (exn + unit) * St;
  (** [blob.exists()] *)
  blob_exists : string -> string -> St -> (exn + bool) * St;
  (** [blob.upload_from_filename(filename, content_type=,
      if_generation_match=)], with the blob's [metadata] *)
  blob_upload_from_filename :
    string -> string -> string -> string -> option Z -> metadata_t ->
    St -> (exn + unit) * St;
  (** [blob.make_public()] *)
  blob_make_public : string -> string -> St -> (exn + unit) * St;
  (** [blob.public_url] *)
  blob_public_url : string -> string -> string;
  (** [client.list_buckets()] *)
  client_list_buckets : St -> (exn + list string) * St;
  (** [bucket.list_blobs(prefix=, max_results=)] *)
  bucket_list_blobs :
    string -> option string -> Z -> St -> (exn + list BlobInfo) * St;
  (** [datetime.utcnow().isoformat()] *)
  utcnow_isoformat : St -> string
}.

Arguments connect {St}.
Arguments blob_exists {St}.
Arguments blob_upload_from_filename {St}.
Arguments blob_make_public {St}.
Arguments blob_public_url {St}.
Arguments client_list_buckets {St}.
Arguments bucket_list_blobs {St}.
Arguments utcnow_isoformat {St}.

(** A computation: it reads and changes the state of the world, raises an
    exception or returns a value, and leaves the requests it sent. *)
Definition M (St A : Type) : Type := St -> (exn + A) * St * list event.

Definition ret {St A} (a : A) : M St A := fun s => (inr a, s, []).

Definition raise {St A} (e : exn) : M St A := fun s => (inl e, s, []).

Definition bind {St A B} (m : M St A) (k : A -> M St B) : M St B :=
  fun s =>
    match m s with
    | (inr a, s', t) => let '(r, s'', t') := k a s' in (r, s'', (t ++ t')%list)
    | (inl e, s', t) => (inl e, s', t)
    end.

Notation "x <- m ;; k" := (bind m (fun x => k))
  (at level 61, m at next level, right associativity).
Notation "m ;;; k" := (bind m (fun _ => k))
  (at level 61, right associativity).

(** A pure step that may raise. *)
Definition lift {St A} (r : exn + A) : M St A := fun s => (r, s, []).

(** [try: m  except <classes selected by catches> as e: handler e] *)
Definition try_except {St A} (m : M St A) (catches : exn -> bool)
    (handler : exn -> M St A) : M St A :=
  fun s =>
    match m s with
    | (inl e, s', t) =>
        if catches e
        then let '(r, s'', t') := handler e s' in (r, s'', (t ++ t')%list)
        else (inl e, s', t)
    | (inr a, s', t) => (inr a, s', t)
    end.

Definition except_Exception (e : exn) : bool := true.

Definition except_GoogleCloudError (e : exn) : bool :=
  exn_class_eqb (exn_cls e) GoogleCloudError.

(** Projections of a finished run. *)
Definition result_of {St A} (x : (exn + A) * St * list event) : exn + A :=
  fst (fst x).
Definition state_of {St A} (x : (exn + A) * St * list event) : St :=
  snd (fst x).
Definition trace_of {St A} (x : (exn + A) * St * list event) : list event :=
  snd x.

(* ================================================================== *)
(** * class GCSUploader *)

Module GCSUploader.
Import Pathlib.

Section Methods.
Context {St : Type}.
Variable h : Host.
Variable env : Env St.

(** ** Requests of the storage client, logged *)

Definition exists_blob (bucket_name blob : string) : M St bool :=
  fun s =>
    let (r, s') := blob_exists env bucket_name blob s in
    (r, s', [EvExists bucket_name blob r]).

Definition upload_from_filename (bucket_name blob filename content_type : string)
    (if_generation_match : option Z) (metadata : metadata_t) : M St unit :=
  fun s =>
    let (r, s') := blob_upload_from_filename env bucket_name blob filename
                     content_type if_generation_match metadata s in
    (r, s', [EvUpload bucket_name blob filename content_type
               if_generation_match metadata r]).

Definition make_public_blob (bucket_name blob : string) : M St unit :=
  fun s =>
    let (r, s') := blob_make_public env bucket_name blob s in
    (r, s', [EvMakePublic bucket_name blob r]).

Definition utcnow : M St string :=
  fun s => (inr (utcnow_isoformat env s), s, []).

(** ** [__init__] and [_validate_credentials] *)

Definition DEFAULT_CREDENTIALS_PATH : Path := joinstr h (SCRIPT_DIR h) "upload.json".

Definition _validate_credentials (credentials_path : Path) : M St unit :=
  if negb (exists_ h credentials_path) then
    raise (mkExn FileNotFoundError
             ("Credentials file not found: " ++ str h credentials_path))
  else if negb (is_file h credentials_path) then
    raise (mkExn ValueError
             ("Credentials path is not a file: " ++ str h credentials_path))
  else ret tt.

Definition __init__ (credentials_path project_id : option string) : M St unit :=
  let credentials_path :=
    match credentials_path with
    | None | Some EmptyString => DEFAULT_CREDENTIALS_PATH
    | Some p => parse_path h p
    end in
  _validate_credentials credentials_path ;;;
  fun s => let (r, s') := connect env (str h credentials_path) project_id s in
           (r, s', []).

(** ** [upload_file] *)

Definition upload_file (bucket_name source_path : string)
    (destination_blob_name content_type : option string)
    (metadata : metadata_t) (make_public overwrite : bool)
  : M St UploadResult :=
  let source_path := resolve h (parse_path h source_path) in
  if negb (exists_ h source_path) then
    raise (mkExn FileNotFoundError
             ("Source file not found: " ++ str h source_path))
  else if negb (is_file h source_path) then
    raise (mkExn ValueError
             ("Source path is not a file: " ++ str h source_path))
  else
    (* Use filename if no destination specified *)
    let destination_blob_name :=
      match destination_blob_name with
      | None => name source_path
      | Some d => d
      end in
    (* Auto-detect content type if not specified *)
    let content_type :=
      match content_type with
      | None =>
          match guess_type h (str h source_path) with
          | None | Some EmptyString => "application/octet-stream"
          | Some ct => ct
          end
      | Some ct => ct
      end in
    (* Check if blob exists when overwrite is False *)
    skip <- (if negb overwrite then exists_blob bucket_name destination_blob_name
             else ret false) ;;
    if skip then
      ret (Skipped "blob_exists" destination_blob_name)
    else
      (* Set metadata if provided *)
      let blob_metadata := if truthy_metadata metadata then metadata else None in
      file_size <- lift (stat_st_size h source_path) ;;
      try_except
        ((* 0 means the object should not exist (for new uploads) *)
         let generation_match := if negb overwrite then Some 0%Z else None in
         upload_from_filename bucket_name destination_blob_name
           (str h source_path) content_type
           (if negb overwrite then generation_match else None)
           blob_metadata ;;;
         public_url <- (if make_public then
                          make_public_blob bucket_name destination_blob_name ;;;
                          ret (Some (blob_public_url env bucket_name
                                       destination_blob_name))
                        else ret None) ;;
         uploaded_at <- utcnow ;;
         ret (Success (str h source_path) destination_blob_name bucket_name
                file_size content_type
                ("gs://" ++ bucket_name ++ "/" ++ destination_blob_name)
                public_url uploaded_at))
        except_GoogleCloudError
        (fun e => raise e).

(** ** [upload_directory] *)

(** The destination derived for one discovered file. *)
Definition destination_of (destination_prefix : string) (relative_path : Path)
  : string :=
  let destination :=
    if negb (destination_prefix =? "")%string
    then str h (joinpath (parse_path h destination_prefix) relative_path)
    else str h relative_path in
  (* Normalize path separators for GCS *)
  replace_char backslash slash destination.

(** The [for file_path in files] loop; [results] is the list built so far. *)
Fixpoint upload_each (bucket_name : string) (source_dir : Path)
    (destination_prefix : string) (content_type : option string)
    (metadata : metadata_t) (make_public overwrite : bool)
    (files : list Path) (results : list UploadResult)
  : M St (list UploadResult) :=
  match files with
  | [] => ret results
  | file_path :: files' =>
      relative_path <- lift (relative_to h file_path source_dir) ;;
      let destination := destination_of destination_prefix relative_path in
      result <- try_except
                  (upload_file bucket_name (str h file_path) (Some destination)
                     content_type metadata make_public overwrite)
                  except_Exception
                  (fun e => ret (Error (str h file_path) (exn_str e))) ;;
      upload_each bucket_name source_dir destination_prefix content_type
        metadata make_public overwrite files' (results ++ [result])%list
  end.

(** The files the directory upload works on: the glob, then the filter on
    [is_file]. *)
Definition discover (source_dir : Path) (pattern : string) (recursive : bool)
  : exn + list Path :=
  match (if recursive then Glob.rglob h source_dir pattern
         else Glob.glob h source_dir pattern) with
  | inl e => inl e
  | inr files => inr (filter (is_file h) files)
  end.

Definition upload_directory (bucket_name source_dir destination_prefix
    pattern : string) (recursive : bool) (content_type : option string)
    (metadata : metadata_t) (make_public overwrite : bool)
  : M St (list UploadResult) :=
  let source_dir := resolve h (parse_path h source_dir) in
  if negb (exists_ h source_dir) then
    raise (mkExn FileNotFoundError
             ("Source directory not found: " ++ str h source_dir))
  else if negb (is_dir h source_dir) then
    raise (mkExn ValueError
             ("Source path is not a directory: " ++ str h source_dir))
  else
    files <- lift (discover source_dir pattern recursive) ;;
    match files with
    | [] => ret []
    | _ => upload_each bucket_name source_dir destination_prefix content_type
             metadata make_public overwrite files []
    end.

(** ** [list_buckets] and [list_blobs] *)

Definition list_buckets : M St (list string) :=
  fun s =>
    let (r, s') := client_list_buckets env s in (r, s', [EvListBuckets r]).

Definition list_blobs (bucket_name : string) (prefix : option string)
    (max_results : Z) : M St (list BlobSummary) :=
  blobs <- (fun s =>
              let (r, s') := bucket_list_blobs env bucket_name prefix max_results s in
              (r, s', [EvListBlobs bucket_name prefix max_results r])) ;;
  ret (map (fun b =>
              mkBlobSummary (blob_name b) (blob_size b) (blob_content_type b)
                (blob_updated b)
                ("gs://" ++ bucket_name ++ "/" ++ blob_name b)) blobs).

End Methods.
End GCSUploader.

(* ================================================================== *)
(** * The command line: [main] *)

Definition DEFAULT_BUCKET : string := "automationstationddata".

(** The namespace [parser.parse_args()] returns. *)
Module Args.
Record t := mk {
  bucket_name : string;          (* positional, default DEFAULT_BUCKET *)
  source : option string;        (* positional *)
  destination : option string;   (* positional *)
  credentials : option string;   (* --credentials, -c *)
  recursive : bool;              (* --recursive, -r *)
  pattern : string;              (* --pattern, -p, default "*" *)
  content_type : option string;  (* --content-type, -t *)
  public : bool;                 (* --public *)
  no_overwrite : bool;           (* --no-overwrite *)
  list_buckets : bool;           (* --list-buckets *)
  list_ : bool;                  (* --list, -l *)
  prefix : option string;        (* --prefix *)
  verbose : bool                 (* --verbose, -v *)
}.
End Args.

(** How [main] ends: it returns a status, or [parser.error] raises
    [SystemExit], which no [except Exception] clause catches. *)
Inductive outcome :=
| Return (code : Z)
| SystemExit (code : Z).

(** [sys.exit(main())] *)
Definition exit_status (o : outcome) : Z :=
  match o with
  | Return c => c
  | SystemExit c => c
  end.

Module Cli.
Import Pathlib.

Section Main.
Context {St : Type}.
Variable h : Host.
Variable env : Env St.

(** [parser.error(message)]: prints the usage and exits with status 2. *)
Definition parser_error (message : string) : M St outcome :=
  ret (SystemExit 2).

(** Truthiness of an optional string argument. *)
Definition truthy (o : option string) : bool :=
  match o with
  | None | Some EmptyString => false
  | Some _ => true
  end.

(** [any(r.get("status") == "error" for r in results)] *)
Definition any_error (results : list UploadResult) : bool :=
  existsb (fun r => (status r =? "error")%string) results.

(** The body of the [try] block of [main]. *)
Definition main_try (args : Args.t) : M St outcome :=
  (* Initialize uploader *)
  GCSUploader.__init__ h env (Args.credentials args) None ;;;
  (* Handle list-buckets *)
  if Args.list_buckets args then
    GCSUploader.list_buckets env ;;;
    ret (Return 0)
  else
  (* Validate bucket_name for other operations *)
  if (Args.bucket_name args =? "")%string then
    parser_error "bucket_name is required for upload/list operations"
  else
  (* Handle list blobs *)
  if Args.list_ args then
    GCSUploader.list_blobs env (Args.bucket_name args) (Args.prefix args) 100 ;;;
    ret (Return 0)
  else
  (* Validate source for upload *)
  if negb (truthy (Args.source args)) then
    parser_error "source path is required for upload"
  else
    let source_path :=
      resolve h (parse_path h
                   (match Args.source args with Some s => s | None => "" end)) in
    (* Determine if uploading file or directory *)
    if is_dir h source_path || Args.recursive args then
      results <- GCSUploader.upload_directory h env
                   (Args.bucket_name args)
                   (str h source_path)
                   (match Args.destination args with Some d => d | None => "" end)
                   (Args.pattern args)
                   (Args.recursive args)
                   (Args.content_type args)
                   None
                   (Args.public args)
                   (negb (Args.no_overwrite args)) ;;
      (* Exit with error if any uploads failed *)
      if any_error results then ret (Return 1) else ret (Return 0)
    else
      result <- GCSUploader.upload_file h env
                  (Args.bucket_name args)
                  (str h source_path)
                  (Args.destination args)
                  (Args.content_type args)
                  None
                  (Args.public args)
                  (negb (Args.no_overwrite args)) ;;
      if (status result =? "error")%string then ret (Return 1)
      else ret (Return 0).

(** [main]: the [try] block and its three [except] clauses, each of which
    logs and returns 1. *)
Definition main (args : Args.t) (s : St) : outcome * St * list event :=
  match main_try args s with
  | (inr o, s', t) => (o, s', t)
  | (inl e, s', t) =>
      match exn_cls e with
      | FileNotFoundError => (Return 1, s', t)
      | GoogleCloudError => (Return 1, s', t)
      | _ => (Return 1, s', t)
      end
  end.

End Main.
End Cli.

(* ================================================================== *)
(** * Concrete hosts and an in-memory storage service

    Instances of [Host] and [Env] on which the model runs.  The theorems
    below quantify over every host and every service; these instances
    provide the concrete inputs. *)

Module Fixtures.
Import Pathlib.

(** ** Path flavours *)

(** [s.split(sep)] for a set of separator characters. *)
Fixpoint split (issep : ascii -> bool) (s : string) : list string :=
  match s with
  | EmptyString => [""]
  | String c s' =>
      if issep c then "" :: split issep s'
      else match split issep s' with
           | [] => [String c ""]
           | x :: r => String c x :: r
           end
  end.

Definition keep_component (c : string) : bool :=
  negb (c =? "")%string && negb (c =? ".")%string.

Definition is_slash (c : ascii) : bool := Ascii.eqb c slash.

(** POSIX: the root is ["/"], or ["//"] for exactly two leading slashes;
    empty components and ["."] are dropped. *)
Definition posix_root (s : string) : string :=
  match s with
  | String "/" (String "/" (String "/" _)) => "/"
  | String "/" (String "/" _) => "//"
  | String "/" _ => "/"
  | _ => ""
  end.

Definition posix_parse (s : string) : Path :=
  mkPath (posix_root s) (filter keep_component (split is_slash s)).

Definition is_winsep (c : ascii) : bool :=
  Ascii.eqb c slash || Ascii.eqb c backslash.

(** Windows: both separators split; a drive letter and a leading separator
    form the anchor.  UNC shares are not distinguished from rooted
    paths. *)
Definition windows_parse (s : string) : Path :=
  match s with
  | String d (String ":" rest) =>
      let drive := String d ":" in
      match rest with
      | String c _ =>
          if is_winsep c
          then mkPath (drive ++ "\") (filter keep_component (split is_winsep rest))
          else mkPath drive (filter keep_component (split is_winsep rest))
      | EmptyString => mkPath drive []
      end
  | String c _ =>
      if is_winsep c
      then mkPath "\" (filter keep_component (split is_winsep s))
      else mkPath "" (filter keep_component (split is_winsep s))
  | EmptyString => mkPath "" []
  end.

(** ** fnmatch *)

Inductive tok :=
| TStar
| TAny
| TLit (c : ascii)
| TSet (negated : bool) (ranges : list (ascii * ascii)).

(** The body of a bracket expression up to its closing bracket: the ranges
    and what follows, or [None] when the bracket is never closed.  [first]
    is set at the first position, where a closing bracket stands for
    itself. *)
Fixpoint bracket_body (first : bool) (s : string)
  : option (list (ascii * ascii) * string) :=
  match s with
  | EmptyString => None
  | String c s' =>
      if Ascii.eqb c "]"%char && negb first then Some ([], s')
      else
        match s' with
        | String "-" (String hi s'') =>
            if Ascii.eqb hi "]"%char then
              match bracket_body false s' with
              | Some (rs, rest) => Some ((c, c) :: rs, rest)
              | None => None
              end
            else
              match bracket_body false s'' with
              | Some (rs, rest) => Some ((c, hi) :: rs, rest)
              | None => None
              end
        | _ =>
            match bracket_body false s' with
            | Some (rs, rest) => Some ((c, c) :: rs, rest)
            | None => None
            end
        end
  end.

Fixpoint tokens (fuel : nat) (s : string) : list tok :=
  match fuel with
  | O => []
  | S fuel' =>
      match s with
      | EmptyString => []
      | String "*" s' => TStar :: tokens fuel' s'
      | String "?" s' => TAny :: tokens fuel' s'
      | String "[" s' =>
          let (neg, body) :=
            match s' with
            | String "!" b => (true, b)
            | _ => (false, s')
            end in
          match bracket_body true body with
          | Some (rs, rest) => TSet neg rs :: tokens fuel' rest
          | None => TLit "["%char :: tokens fuel' s'
          end
      | String c s' => TLit c :: tokens fuel' s'
      end
  end.

Definition in_range (c : ascii) (r : ascii * ascii) : bool :=
  (N.leb (N_of_ascii (fst r)) (N_of_ascii c)
   && N.leb (N_of_ascii c) (N_of_ascii (snd r)))%bool.

Fixpoint match_tokens (ts : list tok) (s : string) {struct ts} : bool :=
  match ts with
  | [] => match s with EmptyString => true | _ => false end
  | TStar :: ts' =>
      (fix star (s : string) : bool :=
         match_tokens ts' s ||
         match s with
         | EmptyString => false
         | String _ s' => star s'
         end) s
  | TAny :: ts' =>
      match s with
      | String _ s' => match_tokens ts' s'
      | EmptyString => false
      end
  | TLit c :: ts' =>
      match s with
      | String d s' => Ascii.eqb c d && match_tokens ts' s'
      | EmptyString => false
      end
  | TSet neg rs :: ts' =>
      match s with
      | String d s' => xorb neg (existsb (in_range d) rs) && match_tokens ts' s'
      | EmptyString => false
      end
  end.

Definition posix_fnmatch (pat nm : string) : bool :=
  match_tokens (tokens (String.length pat) pat) nm.

Definition lower (c : ascii) : ascii :=
  let n := N_of_ascii c in
  if (N.leb 65 n && N.leb n 90)%bool then ascii_of_N (n + 32) else c.

Fixpoint lowercase (s : string) : string :=
  match s with
  | EmptyString => EmptyString
  | String c s' => String (lower c) (lowercase s')
  end.

(** Windows compiles the pattern with [re.IGNORECASE]. *)
Definition windows_fnmatch (pat nm : string) : bool :=
  posix_fnmatch (lowercase pat) (lowercase nm).

(** ** resolve, for paths that cross no symbolic link *)

Fixpoint collapse (acc : list string) (ps : list string) : list string :=
  match ps with
  | [] => rev acc
  | p :: ps' =>
      if (p =? "..")%string then collapse (tl acc) ps'
      else collapse (p :: acc) ps'
  end.

Definition lexical_resolve (cwd : Path) (p : Path) : Path :=
  let q := if (anchor p =? "")%string then joinpath cwd p else p in
  mkPath (anchor q) (collapse [] (parts q)).

(** ** MIME table *)

Fixpoint suffix_of (s : string) : string :=
  match s with
  | EmptyString => EmptyString
  | String c s' =>
      if has_char "."%char s' then suffix_of s'
      else if Ascii.eqb c "."%char then s else EmptyString
  end.

Definition guess (s : string) : option string :=
  let ext := suffix_of s in
  if (ext =? ".pdf")%string then Some "application/pdf"
  else if (ext =? ".json")%string then Some "application/json"
  else if (ext =? ".txt")%string then Some "text/plain"
  else None.

(** ** A file system *)

(** [/opt]: the script with its credentials, and the targets of the links
    of [/a]. *)
Definition dir_linked : list (string * node) := [ ("w.pdf", File 5) ].

Definition dir_opt : list (string * node) :=
  [ ("upload", Dir [ ("upload.json", File 2300) ]);
    ("linked", Dir dir_linked);
    ("real.pdf", File 9) ].

(** The root as the links of [/a] record it above their targets: [/a] is
    there with its files and directories, its links left out. *)
Definition dir_above_opt : list (string * node) :=
  [ ("a", Dir [ ("x.pdf", File 10);
                ("x.json", File 20);
                ("b", Dir [ ("c.txt", File 3) ]);
                ("sub", Dir [ ("y.pdf", File 7); ("z.txt", File 1) ]);
                ("dir.pdf", Dir []);
                ("pipe.pdf", Special) ]);
    ("empty", Dir []);
    ("opt", Dir dir_opt) ].

(** [/a]; [lnk] leads to [/opt/linked] and [alias.pdf] to [/opt/real.pdf]. *)
Definition dir_a : list (string * node) :=
  [ ("x.pdf", File 10);
    ("x.json", File 20);
    ("b", Dir [ ("c.txt", File 3) ]);
    ("sub", Dir [ ("y.pdf", File 7); ("z.txt", File 1) ]);
    ("lnk", Symlink (Some ([dir_opt; dir_above_opt], Dir dir_linked)));
    ("dir.pdf", Dir []);
    ("pipe.pdf", Special);
    ("gone.pdf", Symlink None);
    ("alias.pdf", Symlink (Some ([dir_opt; dir_above_opt], File 9))) ].

Definition dir_root : list (string * node) :=
  [ ("a", Dir dir_a); ("empty", Dir []); ("opt", Dir dir_opt) ].

Definition tree : node := Dir dir_root.

Definition posix : Host :=
  mkHost "/" None posix_parse posix_fnmatch
    (fun a => if (a =? "/")%string then Some tree else None)
    (mkPath "/" ["a"])
    (lexical_resolve (mkPath "/" ["a"]))
    guess
    (mkPath "/" ["opt"; "upload"]).

Definition windows : Host :=
  mkHost "\" (Some "/") windows_parse windows_fnmatch
    (fun a => if (a =? "C:\")%string then Some tree else None)
    (mkPath "C:\" ["a"])
    (lexical_resolve (mkPath "C:\" ["a"]))
    guess
    (mkPath "C:\" ["opt"; "upload"]).

(** ** An in-memory storage service

    Objects carry a generation number, as in Cloud Storage: a write with
    [if_generation_match = g] is accepted only when the current generation
    of the target is [g], where an absent object has generation 0.  The
    service also runs the requests of other clients: [others] holds, for
    each of our coming requests, what another client writes just before
    it. *)

Record object := mkObject {
  obj_bucket : string;
  obj_name : string;
  obj_content : string;
  obj_generation : Z;
  obj_public : bool
}.

Record service := mkService {
  objects : list object;
  next_generation : Z;
  (** blob names whose upload fails in transport *)
  unreachable : list string;
  (** writes of other clients, one slot per request of ours *)
  others : list (option (string * string * string));
  (** the clock *)
  now : string
}.

Definition same_key (b n : string) (o : object) : bool :=
  ((obj_bucket o =? b) && (obj_name o =? n))%string.

Definition find_object (b n : string) (s : service) : option object :=
  find (same_key b n) (objects s).

Definition put_object (b n content : string) (s : service) : service :=
  mkService
    (mkObject b n content (next_generation s) false
       :: filter (fun o => negb (same_key b n o)) (objects s))
    (next_generation s + 1)
    (unreachable s) (others s) (now s).

(** Let the next concurrent write, if any, happen. *)
Definition interleave (s : service) : service :=
  match others s with
  | [] => s
  | None :: rest =>
      mkService (objects s) (next_generation s) (unreachable s) rest (now s)
  | Some (b, n, content) :: rest =>
      put_object b n content
        (mkService (objects s) (next_generation s) (unreachable s) rest (now s))
  end.

Definition current_generation (b n : string) (s : service) : Z :=
  match find_object b n s with
  | Some o => obj_generation o
  | None => 0
  end.

Definition svc_exists (b n : string) (s : service) : (exn + bool) * service :=
  let s := interleave s in
  (inr (match find_object b n s with Some _ => true | None => false end), s).

Definition svc_upload (b n filename ct : string) (g : option Z)
    (md : metadata_t) (s : service) : (exn + unit) * service :=
  let s := interleave s in
  if existsb (String.eqb n) (unreachable s) then
    (inl (mkExn GoogleCloudError "503 Service Unavailable"), s)
  else
    match g with
    | Some g0 =>
        if (current_generation b n s =? g0)%Z
        then (inr tt, put_object b n filename s)
        else (inl (mkExn GoogleCloudError "412 Precondition Failed"), s)
    | None => (inr tt, put_object b n filename s)
    end.

Definition svc_make_public (b n : string) (s : service)
  : (exn + unit) * service :=
  let s := interleave s in
  match find_object b n s with
  | Some o =>
      (inr tt,
       mkService
         (mkObject b n (obj_content o) (obj_generation o) true
            :: filter (fun o => negb (same_key b n o)) (objects s))
         (next_generation s) (unreachable s) (others s) (now s))
  | None => (inl (mkExn GoogleCloudError "404 Not Found"), s)
  end.

Definition svc_list_blobs (b : string) (prefix : option string) (m : Z)
    (s : service) : (exn + list BlobInfo) * service :=
  (inr (map (fun o => mkBlobInfo (obj_name o) None None None)
          (filter (fun o => (obj_bucket o =? b)%string) (objects s))), s).

Definition cloud : Env service :=
  mkEnv service
    (fun _ _ s => (inr tt, s))
    svc_exists
    svc_upload
    svc_make_public
    (fun b n => "https://storage.googleapis.com/" ++ b ++ "/" ++ n)
    (fun s => (inr (map obj_bucket (objects s)), s))
    svc_list_blobs
    now.

Definition empty_service : service :=
  mkService [] 1 [] [] "2024-01-01T00:00:00".

(** A service that cannot be reached for one blob. *)
Definition flaky_service : service :=
  mkService [] 1 ["docs/x.json"] [] "2024-01-01T00:00:00".

(** A service that already holds [gs://bk/x.pdf]. *)
Definition stocked_service : service :=
  mkService [mkObject "bk" "x.pdf" "earlier" 1 false] 2 [] []
    "2024-01-01T00:00:00".

(** A service on which another client writes [gs://bk/x.pdf] right after
    our first request. *)
Definition contended_service : service :=
  mkService [] 1 [] [None; Some ("bk", "x.pdf", "theirs")]
    "2024-01-01T00:00:00".

(** A command line with the defaults of the parser. *)
Definition default_args : Args.t :=
  Args.mk DEFAULT_BUCKET None None None false "*" None false false false false
    None false.

End Fixtures.

(* ================================================================== *)
(** * Vocabulary of the statements *)

(** ** The runs of [upload_file]

    What one call of [upload_file] can do, case by case: the result, the
    state it leaves and the requests it sent. *)

Section UploadFileRuns.
Import Pathlib.
Context {St : Type}.
Variable h : Host.
Variable env : Env St.
Variables bucket_name source_path : string.
Variables destination_blob_name content_type : option string.
Variable metadata : metadata_t.
Variables make_public overwrite : bool.

(** The file that is uploaded. *)
Definition source_file : Path := resolve h (parse_path h source_path).

(** The blob name: the one given, else the base name of the source file. *)
Definition target_name : string :=
  match destination_blob_name with
  | Some d => d
  | None => name source_file
  end.

(** The content type: the one given, else the guessed one, else the generic
    binary type. *)
Definition target_content_type : string :=
  match content_type with
  | Some ct => ct
  | None =>
      match guess_type h (str h source_file) with
      | None | Some EmptyString => "application/octet-stream"
      | Some ct => ct
      end
  end.

Definition target_metadata : metadata_t :=
  if truthy_metadata metadata then metadata else None.

(** The generation precondition of the write: none when overwriting,
    "generation 0", that is "must not exist", otherwise. *)
Definition write_precondition : option Z :=
  if overwrite then None else Some 0%Z.

(** The existence check: not made when overwriting; otherwise it answered
    "absent". *)
Definition checked_absent (s : St) (pre : list event) (s1 : St) : Prop :=
  (overwrite = true /\ pre = [] /\ s1 = s) \/
  (overwrite = false /\
   blob_exists env bucket_name target_name s = (inr false, s1) /\
   pre = [EvExists bucket_name target_name (inr false)]).

Definition the_upload (answer : exn + unit) : event :=
  EvUpload bucket_name target_name (str h source_file) target_content_type
    write_precondition target_metadata answer.

Inductive upload_file_run (s : St)
  : (exn + UploadResult) * St * list event -> Prop :=
| run_missing :
    exists_ h source_file = false ->
    upload_file_run s
      (inl (mkExn FileNotFoundError
              ("Source file not found: " ++ str h source_file)), s, [])
| run_not_a_file :
    exists_ h source_file = true ->
    is_file h source_file = false ->
    upload_file_run s
      (inl (mkExn ValueError
              ("Source path is not a file: " ++ str h source_file)), s, [])
| run_check_failed e s1 :
    is_file h source_file = true ->
    overwrite = false ->
    blob_exists env bucket_name target_name s = (inl e, s1) ->
    upload_file_run s (inl e, s1, [EvExists bucket_name target_name (inl e)])
| run_skipped s1 :
    is_file h source_file = true ->
    overwrite = false ->
    blob_exists env bucket_name target_name s = (inr true, s1) ->
    upload_file_run s
      (inr (Skipped "blob_exists" target_name), s1,
       [EvExists bucket_name target_name (inr true)])
| run_stat_failed pre s1 e :
    is_file h source_file = true ->
    checked_absent s pre s1 ->
    stat_st_size h source_file = inl e ->
    upload_file_run s (inl e, s1, pre)
| run_upload_failed pre s1 size e s2 :
    is_file h source_file = true ->
    checked_absent s pre s1 ->
    stat_st_size h source_file = inr size ->
    blob_upload_from_filename env bucket_name target_name (str h source_file)
      target_content_type write_precondition target_metadata s1 = (inl e, s2) ->
    upload_file_run s (inl e, s2, (pre ++ [the_upload (inl e)])%list)
| run_publish_failed pre s1 size s2 e s3 :
    is_file h source_file = true ->
    checked_absent s pre s1 ->
    stat_st_size h source_file = inr size ->
    blob_upload_from_filename env bucket_name target_name (str h source_file)
      target_content_type write_precondition target_metadata s1 = (inr tt, s2) ->
    make_public = true ->
    blob_make_public env bucket_name target_name s2 = (inl e, s3) ->
    upload_file_run s
      (inl e, s3,
       (pre ++ [the_upload (inr tt);
                EvMakePublic bucket_name target_name (inl e)])%list)
| run_success pre s1 size s2 s3 post :
    is_file h source_file = true ->
    checked_absent s pre s1 ->
    stat_st_size h source_file = inr size ->
    blob_upload_from_filename env bucket_name target_name (str h source_file)
      target_content_type write_precondition target_metadata s1 = (inr tt, s2) ->
    (make_public = false /\ s3 = s2 /\ post = []) \/
    (make_public = true /\
     blob_make_public env bucket_name target_name s2 = (inr tt, s3) /\
     post = [EvMakePublic bucket_name target_name (inr tt)]) ->
    upload_file_run s
      (inr (Success (str h source_file) target_name bucket_name size
              target_content_type
              ("gs://" ++ bucket_name ++ "/" ++ target_name)
              (if make_public
               then Some (blob_public_url env bucket_name target_name)
               else None)
              (utcnow_isoformat env s3)),
       s3, (pre ++ the_upload (inr tt) :: post)%list).

End UploadFileRuns.

(** ** Requests and their answers *)

(** The error a request was answered with, if any. *)
Definition event_error (ev : event) : option exn :=
  match ev with
  | EvExists _ _ (inl e)
  | EvUpload _ _ _ _ _ _ (inl e)
  | EvMakePublic _ _ (inl e)
  | EvListBuckets (inl e)
  | EvListBlobs _ _ _ (inl e) => Some e
  | _ => None
  end.

(** The generation precondition a request carries, for a write. *)
Definition event_precondition (ev : event) : option (option Z) :=
  match ev with
  | EvUpload _ _ _ _ g _ _ => Some g
  | _ => None
  end.

(** The destination recorded in a result, when it has one. *)
Definition result_destination (r : UploadResult) : option string :=
  match r with
  | Success _ d _ _ _ _ _ _ => Some d
  | Skipped _ d => Some d
  | Error _ _ => None
  end.

(** ** The batch of a directory upload

    What the loop of [upload_directory] does on a list of files below
    [source_dir]: one attempt per file, each in the state the previous
    attempts left. *)

Section Batch.
Import Pathlib.
Context {St : Type}.
Variable h : Host.
Variable env : Env St.
Variable bucket_name : string.
Variable source_dir : Path.
Variable destination_prefix : string.
Variable content_type : option string.
Variable metadata : metadata_t.
Variables make_public overwrite : bool.

(** The path of a file below [source_dir], relative to it. *)
Definition relative_path (f : Path) : Path :=
  mkPath "" (skipn (List.length (parts source_dir)) (parts f)).

(** The call of [upload_file] made for a file. *)
Definition attempt (f : Path) : M St UploadResult :=
  GCSUploader.upload_file h env bucket_name (str h f)
    (Some (GCSUploader.destination_of h destination_prefix (relative_path f)))
    content_type metadata make_public overwrite.

(** The entry the batch gets for a file: the result of the attempt, or an
    Error entry with the path of the file and the message of the error. *)
Definition entry_of (f : Path) (s : St) : UploadResult :=
  match result_of (attempt f s) with
  | inr r => r
  | inl e => Error (str h f) (exn_str e)
  end.

(** The state of the service once the loop has gone through [files]. *)
Fixpoint state_after (files : list Path) (s : St) : St :=
  match files with
  | [] => s
  | f :: files' => state_after files' (state_of (attempt f s))
  end.

Fixpoint batch (files : list Path) (s : St) : list UploadResult :=
  match files with
  | [] => []
  | f :: files' => entry_of f s :: batch files' (state_of (attempt f s))
  end.

Fixpoint batch_trace (files : list Path) (s : St) : list event :=
  match files with
  | [] => []
  | f :: files' =>
      (trace_of (attempt f s) ++ batch_trace files' (state_of (attempt f s)))%list
  end.

(** An entry is the entry of a given file: an Error entry names the file,
    a Skipped or Success entry names the destination derived for it. *)
Definition entry_for (f : Path) (r : UploadResult) : Prop :=
  match r with
  | Error source _ => source = str h f
  | Skipped _ destination =>
      destination
      = GCSUploader.destination_of h destination_prefix (relative_path f)
  | Success source destination _ _ _ _ _ _ =>
      source = str h (resolve h (parse_path h (str h f))) /\
      destination
      = GCSUploader.destination_of h destination_prefix (relative_path f)
  end.

(** A path below [source_dir]. *)
Definition below (f : Path) : Prop :=
  anchor f = anchor source_dir /\
  exists rel, parts f = (parts source_dir ++ rel)%list.

End Batch.

(** ** Destination names *)

(** The prefix as a path: nothing for the empty prefix. *)
Definition prefix_path (h : Host) (destination_prefix : string) : Path :=
  if (destination_prefix =? "")%string then mkPath "" []
  else parse_path h destination_prefix.

(** Components joined with forward slashes, after the anchor, every
    backslash turned into a forward slash. *)
Definition slash_joined (a : string) (components : list string) : string :=
  replace_char backslash slash a ++
  String.concat "/" (map (replace_char backslash slash) components).

(** ** The command line *)

(** [main] stops at [parser.error]: the bucket name is empty, or an upload
    is requested without a source. *)
Definition usage_error (args : Args.t) : bool :=
  negb (Args.list_buckets args) &&
  ((Args.bucket_name args =? "")%string ||
   negb (Args.list_ args) && negb (Cli.truthy (Args.source args))).

(** An entry of Error kind. *)
Definition is_error_entry (r : UploadResult) : bool :=
  match r with
  | Error _ _ => true
  | _ => false
  end.

(** The status of a run that raised or returned. *)
Definition status_of_run {A} (r : exn + A) (returned : A -> Z) : Z :=
  match r with
  | inl _ => 1%Z
  | inr a => returned a
  end.

(** ** Discovery *)







(** ** More requests vocabulary *)

(** The bucket and blob a request is about, for the requests on a blob. *)
Definition event_target (ev : event) : option (string * string) :=
  match ev with
  | EvExists b n _ => Some (b, n)
  | EvUpload b n _ _ _ _ _ => Some (b, n)
  | EvMakePublic b n _ => Some (b, n)
  | _ => None
  end.

Definition is_check (ev : event) : bool :=
  match ev with EvExists _ _ _ => true | _ => false end.

Definition is_publish (ev : event) : bool :=
  match ev with EvMakePublic _ _ _ => true | _ => false end.

(** A write the service accepted. *)
Definition accepted_write (ev : event) : bool :=
  match ev with EvUpload _ _ _ _ _ _ (inr _) => true | _ => false end.

Definition is_success (r : UploadResult) : bool :=
  match r with Success _ _ _ _ _ _ _ _ => true | _ => false end.

(** A result with its time stamp blanked. *)
Definition without_timestamp (r : UploadResult) : UploadResult :=
  match r with
  | Success src dst b sz ct uri pub _ => Success src dst b sz ct uri pub ""
  | _ => r
  end.

(** A path component with no slash and no backslash in it. *)
Definition clean (c : string) : bool :=
  negb (has_char slash c) && negb (has_char backslash c).

(** ** More scenarios *)

Module Scenarios.
Import Fixtures.

(** A bucket with uniform bucket-level access: objects cannot be made
    public one by one, [make_public] is refused. *)
Definition uniform_access : Env service :=
  mkEnv service
    (fun _ _ s => (inr tt, s))
    svc_exists
    svc_upload
    (fun b n s => (inl (mkExn GoogleCloudError "400 Bad Request"), s))
    (fun b n => "https://storage.googleapis.com/" ++ b ++ "/" ++ n)
    (fun s => (inr (map obj_bucket (objects s)), s))
    svc_list_blobs
    now.

(** A directory with a file whose name holds a backslash, beside a
    directory and file that spell the same path. *)
Definition collision_tree : node :=
  Dir [ ("d", Dir [ ("a\b", File 1);
                    ("a", Dir [ ("b", File 2) ]) ]) ].

Definition collision_host : Host :=
  mkHost "/" None posix_parse posix_fnmatch
    (fun a => if (a =? "/")%string then Some collision_tree else None)
    (mkPath "/" ["d"])
    (lexical_resolve (mkPath "/" ["d"]))
    guess
    (mkPath "/" ["opt"; "upload"]).

End Scenarios.

(** ** The summary of a batch

    The three counts [upload_directory] logs before it returns. *)

(** [sum(1 for r in results if r.get("status") == st)] *)
Definition count_status (st : string) (results : list UploadResult) : nat :=
  list_sum (map (fun _ => 1) (filter (fun r => (status r =? st)%string) results)).

Definition successful (results : list UploadResult) : nat :=
  count_status "success" results.

Definition skipped (results : list UploadResult) : nat :=
  count_status "skipped" results.

Definition failed (results : list UploadResult) : nat :=
  count_status "error" results.

(* ================================================================== *)
(** * Properties *)

Section UploadFileFacts.
Import Pathlib.
Context {St : Type}.
Variable h : Host.
Variable env : Env St.

Lemma is_file_exists (p : Path) : is_file h p = true -> exists_ h p = true.
Proof.
  unfold is_file, exists_, node_is_file, node_exists.
  destruct (locate h p) as [[st n]|]; [|discriminate].
  destruct (follow n) as [[]|]; congruence.
Qed.

Lemma is_file_not_dir (p : Path) : is_file h p = true -> is_dir h p = false.
Proof.
  unfold is_file, is_dir, node_is_file, node_is_dir.
  destruct (locate h p) as [[st n]|]; [|discriminate].
  destruct (follow n) as [[]|]; congruence.
Qed.

Lemma reraise_same {A} (e : exn) (s : St) (t : list event) :
  (if except_GoogleCloudError e
   then let '(r, s'', t') := raise (A:=A) e s in (r, s'', (t ++ t')%list)
   else (inl e, s, t)) = (inl e, s, t).
Proof.
  destruct (except_GoogleCloudError e); cbn; [rewrite app_nil_r|]; reflexivity.
Qed.

(** Every call of [upload_file] is one of the runs. *)
Lemma upload_file_runs bucket_name source_path destination_blob_name
    content_type metadata make_public overwrite (s : St) :
  upload_file_run h env bucket_name source_path destination_blob_name
    content_type metadata make_public overwrite s
    (GCSUploader.upload_file h env bucket_name source_path
       destination_blob_name content_type metadata make_public overwrite s).
Proof.
  pose proof (@run_stat_failed St h env bucket_name source_path
                destination_blob_name content_type metadata make_public
                overwrite s) as Rstat.
  pose proof (@run_upload_failed St h env bucket_name source_path
                destination_blob_name content_type metadata make_public
                overwrite s) as Rup.
  pose proof (@run_publish_failed St h env bucket_name source_path
                destination_blob_name content_type metadata make_public
                overwrite s) as Rpub.
  pose proof (@run_success St h env bucket_name source_path
                destination_blob_name content_type metadata make_public
                overwrite s) as Rok.
  unfold checked_absent, the_upload, write_precondition, target_metadata,
    target_content_type, target_name, source_file in *.
  unfold GCSUploader.upload_file.
  set (src := resolve h (parse_path h source_path)) in *.
  destruct (exists_ h src) eqn:Hex; cbn [negb].
  2:{ now apply run_missing. }
  destruct (is_file h src) eqn:Hfile; cbn [negb].
  2:{ now apply run_not_a_file. }
  set (dst := match destination_blob_name with
              | Some d => d
              | None => name src
              end) in *.
  replace (match destination_blob_name with
           | None => name src
           | Some d => d
           end) with dst by (now destruct destination_blob_name).
  set (ct := match content_type with
             | Some c => c
             | None => _
             end) in *.
  replace (match content_type with
           | None => match guess_type h (str h src) with
                     | None | Some EmptyString => "application/octet-stream"
                     | Some c => c
                     end
           | Some c => c
           end) with ct by (now destruct content_type).
  set (md := if truthy_metadata metadata then metadata else None) in *.
  destruct overwrite; cbn [negb] in *.
  - (* overwrite: no existence check *)
    specialize (fun e => Rstat [] s e eq_refl (or_introl (conj eq_refl (conj eq_refl eq_refl)))).
    specialize (fun sz e s2 => Rup [] s sz e s2 eq_refl (or_introl (conj eq_refl (conj eq_refl eq_refl)))).
    specialize (fun sz s2 e s3 => Rpub [] s sz s2 e s3 eq_refl (or_introl (conj eq_refl (conj eq_refl eq_refl)))).
    specialize (fun sz s2 s3 post => Rok [] s sz s2 s3 post eq_refl (or_introl (conj eq_refl (conj eq_refl eq_refl)))).
    unfold bind, ret, lift.
    destruct (stat_st_size h src) as [e|size] eqn:Hstat.
    { now apply Rstat. }
    unfold try_except, GCSUploader.upload_from_filename.
    destruct (blob_upload_from_filename env bucket_name dst (str h src) ct None md s)
      as [[e|[]] s2] eqn:Hup.
    { rewrite reraise_same. cbn [app]. now apply (Rup size). }
    destruct make_public.
    + unfold GCSUploader.make_public_blob, GCSUploader.utcnow.
      destruct (blob_make_public env bucket_name dst s2) as [[e|[]] s3] eqn:Hp.
      * rewrite reraise_same. cbn [app]. now apply (Rpub size s2).
      * cbn [app]. apply (Rok size s2 s3 [EvMakePublic bucket_name dst (inr tt)]); auto.
    + unfold GCSUploader.utcnow. cbn [app].
      apply (Rok size s2 s2 []); auto.
  - (* no overwrite: existence check first *)
    unfold bind at 1, GCSUploader.exists_blob.
    destruct (blob_exists env bucket_name dst s) as [[e|[|]] s1] eqn:Hchk.
    + now apply run_check_failed.
    + unfold ret. cbn [app]. now apply run_skipped.
    + pose proof (or_intror (conj eq_refl (conj eq_refl eq_refl))
        : false = true /\ [EvExists bucket_name dst (inr false)] = [] /\ s1 = s \/
          false = false /\
          (inr false, s1) = (@inr exn bool false, s1) /\
          [EvExists bucket_name dst (inr false)] =
          [EvExists bucket_name dst (inr false)]) as Hc.
      specialize (fun e => Rstat _ s1 e eq_refl Hc).
      specialize (fun sz e s2 => Rup _ s1 sz e s2 eq_refl Hc).
      specialize (fun sz s2 e s3 => Rpub _ s1 sz s2 e s3 eq_refl Hc).
      specialize (fun sz s2 s3 post => Rok _ s1 sz s2 s3 post eq_refl Hc).
      unfold bind, ret, lift.
      destruct (stat_st_size h src) as [e|size] eqn:Hstat.
      { cbn [app]. now apply Rstat. }
      unfold try_except, GCSUploader.upload_from_filename.
      destruct (blob_upload_from_filename env bucket_name dst (str h src) ct
                  (Some 0%Z) md s1) as [[e|[]] s2] eqn:Hup.
      { rewrite reraise_same. cbn [app]. now apply (Rup size). }
      destruct make_public.
      * unfold GCSUploader.make_public_blob, GCSUploader.utcnow.
        destruct (blob_make_public env bucket_name dst s2) as [[e|[]] s3] eqn:Hp.
        -- rewrite reraise_same. cbn [app]. now apply (Rpub size s2).
        -- cbn [app].
           apply (Rok size s2 s3 [EvMakePublic bucket_name dst (inr tt)]); auto.
      * unfold GCSUploader.utcnow. cbn [app].
        apply (Rok size s2 s2 []); auto.
Qed.

End UploadFileFacts.

(* ------------------------------------------------------------------ *)
(** ** Single-file upload *)

Section UploadFileResults.
Import Pathlib.
Context {St : Type}.
Variable h : Host.
Variable env : Env St.
Variables bucket_name source_path : string.
Variables destination_blob_name content_type : option string.
Variable metadata : metadata_t.
Variable make_public : bool.

Local Notation upload_file := (GCSUploader.upload_file h env).
Local Notation src := (source_file h source_path).
Local Notation dst := (target_name h source_path destination_blob_name).

Ltac run_cases overwrite s R :=
  pose proof (upload_file_runs h env bucket_name source_path
                destination_blob_name content_type metadata make_public
                overwrite s) as R;
  destruct (upload_file bucket_name source_path destination_blob_name
              content_type metadata make_public overwrite s) as [[?r ?s'] ?t];
  unfold result_of, state_of, trace_of in *; cbn [fst snd] in *.

Ltac absent_cases :=
  match goal with
  | H : checked_absent _ _ _ _ _ _ _ _ _ |- _ =>
      destruct H as [(? & ? & ?) | (? & ? & ?)]; subst; try discriminate
  end.

(** C3.  With [overwrite] false, once the storage client has answered that
    the target blob exists, the call returns Skipped with reason
    ["blob_exists"] for that blob: the existence check on (bucket,
    destination) is the only request sent, so no upload is attempted, and
    the result is neither an error nor a Success. *)
Theorem existing_blob_is_skipped (s : St) (b n : string) :
  In (EvExists b n (inr true))
     (trace_of (upload_file bucket_name source_path destination_blob_name
                  content_type metadata make_public false s)) ->
  b = bucket_name /\ n = dst /\
  result_of (upload_file bucket_name source_path destination_blob_name
               content_type metadata make_public false s)
  = inr (Skipped "blob_exists" dst) /\
  trace_of (upload_file bucket_name source_path destination_blob_name
              content_type metadata make_public false s)
  = [EvExists bucket_name dst (inr true)].
Proof.
  run_cases false s R. intros Hin.
  inversion R; subst; clear R; try absent_cases;
    unfold the_upload in *; cbn [In app] in Hin;
    repeat match goal with
           | H : _ \/ _ |- _ => destruct H
           | H : False |- _ => destruct H
           | H : _ /\ _ |- _ => destruct H
           | H : EvExists _ _ _ = EvExists _ _ _ |- _ => inversion H; subst; clear H
           | H : _ = _ |- _ => discriminate H
           end; subst; cbn [In app] in *;
    repeat match goal with
           | H : _ \/ _ |- _ => destruct H
           | H : False |- _ => destruct H
           | H : _ = EvExists _ _ _ |- _ => discriminate H
           end.
  auto.
Qed.


(** C8.  A Success result records the resolved source path, the
    destination, the bucket, the size [stat] reports for the source file,
    the content type, the URI [gs://bucket/destination], the public URL
    exactly when the blob was made public, and the time of the clock. *)
Theorem success_fields (overwrite : bool) (s : St)
    (source destination bucket : string) (size_bytes : N)
    (ctype gs_uri : string) (public_url : option string) (uploaded_at : string) :
  result_of (upload_file bucket_name source_path destination_blob_name
               content_type metadata make_public overwrite s)
  = inr (Success source destination bucket size_bytes ctype gs_uri public_url
           uploaded_at) ->
  source = str h src /\
  destination = dst /\
  bucket = bucket_name /\
  stat_st_size h src = inr size_bytes /\
  ctype = target_content_type h source_path content_type /\
  gs_uri = "gs://" ++ bucket_name ++ "/" ++ destination /\
  public_url = (if make_public
                then Some (blob_public_url env bucket_name destination)
                else None) /\
  uploaded_at
  = utcnow_isoformat env
      (state_of (upload_file bucket_name source_path destination_blob_name
                   content_type metadata make_public overwrite s)).
Proof.
  run_cases overwrite s R. intros E. subst r.
  inversion R; subst; clear R.
  repeat split; auto.
Qed.

(** The write [upload_file] sends, and its precondition. *)
Lemma upload_events_carry_precondition (overwrite : bool) (s : St) (ev : event) :
  In ev (trace_of (upload_file bucket_name source_path destination_blob_name
                     content_type metadata make_public overwrite s)) ->
  is_upload ev = true ->
  exists answer,
    ev = EvUpload bucket_name dst (str h src)
           (target_content_type h source_path content_type)
           (if overwrite then None else Some 0%Z)
           (target_metadata metadata) answer.
Proof.
  run_cases overwrite s R. intros Hin Hup.
  inversion R; subst; clear R; try absent_cases;
    unfold the_upload, write_precondition in *; cbn [In app] in Hin;
    repeat match goal with
           | H : _ \/ _ |- _ => destruct H
           | H : False |- _ => destruct H
           | H : _ /\ _ |- _ => destruct H
           end; subst; cbn [In app is_upload] in *;
    repeat match goal with
           | H : _ \/ _ |- _ => destruct H
           | H : False |- _ => destruct H
           end; subst; cbn [is_upload] in *;
    try discriminate; eauto.
Qed.

(** A Success result was preceded by an accepted write. *)
Lemma success_has_uploaded (overwrite : bool) (s : St) (r : UploadResult) :
  result_of (upload_file bucket_name source_path destination_blob_name
               content_type metadata make_public overwrite s) = inr r ->
  status r = "success" ->
  In (EvUpload bucket_name dst (str h src)
        (target_content_type h source_path content_type)
        (if overwrite then None else Some 0%Z)
        (target_metadata metadata) (inr tt))
     (trace_of (upload_file bucket_name source_path destination_blob_name
                  content_type metadata make_public overwrite s)).
Proof.
  run_cases overwrite s R. intros E Hs. subst.
  inversion R; subst; clear R; try discriminate.
  unfold the_upload, write_precondition.
  apply in_or_app. right. left. reflexivity.
Qed.

(** An error answered by the storage client is the error [upload_file]
    raises. *)
Lemma client_errors_propagate (overwrite : bool) (s : St) (ev : event) (e : exn) :
  In ev (trace_of (upload_file bucket_name source_path destination_blob_name
                     content_type metadata make_public overwrite s)) ->
  event_error ev = Some e ->
  result_of (upload_file bucket_name source_path destination_blob_name
               content_type metadata make_public overwrite s) = inl e.
Proof.
  run_cases overwrite s R. intros Hin He.
  inversion R; subst; clear R; try absent_cases;
    unfold the_upload in *; cbn [In app] in Hin;
    repeat match goal with
           | H : _ \/ _ |- _ => destruct H
           | H : False |- _ => destruct H
           | H : _ /\ _ |- _ => destruct H
           end; subst; cbn [In app event_error] in *;
    repeat match goal with
           | H : _ \/ _ |- _ => destruct H
           | H : False |- _ => destruct H
           end; subst; cbn [event_error] in *;
    try discriminate; try congruence.
Qed.

(** The destination of a result of [upload_file] is the target name: the
    name given, else the base name of the source file. *)
Lemma result_destination_is_target (overwrite : bool) (s : St) (r : UploadResult) :
  result_of (upload_file bucket_name source_path destination_blob_name
               content_type metadata make_public overwrite s) = inr r ->
  result_destination r = Some dst.
Proof.
  run_cases overwrite s R. intros E. subst.
  inversion R; subst; clear R; reflexivity.
Qed.

End UploadFileResults.

(* ------------------------------------------------------------------ *)
(** ** Directory upload *)

Lemma Forall2_impl {A B} (P Q : A -> B -> Prop) (l1 : list A) (l2 : list B) :
  (forall a b, P a b -> Q a b) -> Forall2 P l1 l2 -> Forall2 Q l1 l2.
Proof. intros HPQ. induction 1; constructor; auto. Qed.

Lemma Forall2_Forall_l {A B} (P : A -> B -> Prop) (Q : A -> Prop)
    (l1 : list A) (l2 : list B) :
  Forall2 P l1 l2 -> Forall Q l1 -> Forall2 (fun a b => Q a /\ P a b) l1 l2.
Proof.
  induction 1 as [|a b l1 l2 Hab _ IH]; intros HQ; constructor;
    inversion HQ; subst; auto.
Qed.

Section PathFacts.
Import Pathlib.
Variable h : Host.

Lemma strip_prefix_app (pre rest : list string) :
  strip_prefix pre (pre ++ rest) = Some rest.
Proof.
  induction pre as [|x pre IH]; cbn; [reflexivity|].
  now rewrite String.eqb_refl.
Qed.

Lemma skipn_app_length {A} (l r : list A) : skipn (List.length l) (l ++ r) = r.
Proof. induction l; cbn; auto. Qed.

Lemma relative_to_below (d f : Path) :
  below d f -> relative_to h f d = inr (relative_path d f).
Proof.
  intros [Ha [rel Hp]]. unfold relative_to, relative_path.
  rewrite Ha, String.eqb_refl, Hp, strip_prefix_app, skipn_app_length.
  reflexivity.
Qed.

Lemma select_below (pats : list string) (d f : Path) :
  In f (Glob.select h pats d) -> below d f.
Proof.
  unfold Glob.select.
  destruct (locate h d) as [[stack n]|]; [|intros []].
  destruct (node_is_dir n); [|intros []].
  intros Hin. apply in_map_iff in Hin as [x [<- _]].
  split; cbn; eauto.
Qed.

Lemma discover_below (d : Path) (pattern : string) (recursive : bool)
    (files : list Path) :
  GCSUploader.discover h d pattern recursive = inr files ->
  Forall (below d) files.
Proof.
  unfold GCSUploader.discover, Glob.rglob, Glob.glob.
  intros E. apply Forall_forall. intros f Hf.
  destruct recursive.
  - destruct (negb _); [discriminate|].
    destruct (Glob.make_selector _); [discriminate|].
    inversion E; subst. apply filter_In in Hf as [Hf _].
    eapply select_below; eauto.
  - destruct (pattern =? "")%string; [discriminate|].
    destruct (negb _); [discriminate|].
    destruct (Glob.make_selector _); [discriminate|].
    inversion E; subst. apply filter_In in Hf as [Hf _].
    eapply select_below; eauto.
Qed.

End PathFacts.

Section DirectoryFacts.
Import Pathlib.
Context {St : Type}.
Variable h : Host.
Variable env : Env St.
Variables bucket_name destination_prefix : string.
Variable source_dir : Path.
Variable content_type : option string.
Variable metadata : metadata_t.
Variables make_public overwrite : bool.

Local Notation attempt' :=
  (attempt h env bucket_name source_dir destination_prefix content_type
     metadata make_public overwrite).
Local Notation entry_of' :=
  (entry_of h env bucket_name source_dir destination_prefix content_type
     metadata make_public overwrite).
Local Notation batch' :=
  (batch h env bucket_name source_dir destination_prefix content_type
     metadata make_public overwrite).
Local Notation state_after' :=
  (state_after h env bucket_name source_dir destination_prefix content_type
     metadata make_public overwrite).
Local Notation batch_trace' :=
  (batch_trace h env bucket_name source_dir destination_prefix content_type
     metadata make_public overwrite).
Local Notation upload_each' :=
  (GCSUploader.upload_each h env bucket_name source_dir destination_prefix
     content_type metadata make_public overwrite).

(** The loop never raises on files below the source directory: it returns
    the entries collected so far followed by the batch. *)
Lemma upload_each_batch (files : list Path) :
  Forall (below source_dir) files ->
  forall (results : list UploadResult) (s : St),
    upload_each' files results s
    = (inr (results ++ batch' files s)%list, state_after' files s,
       batch_trace' files s).
Proof.
  induction 1 as [|f files Hf _ IH]; intros results s; cbn.
  - unfold ret. now rewrite app_nil_r.
  - unfold bind at 1, lift. rewrite (relative_to_below h _ _ Hf).
    cbn [app]. unfold bind, try_except.
    fold (attempt' f). unfold entry_of, result_of, state_of, trace_of.
    destruct (attempt' f s) as [[[e|r] s1] t1]; cbn [fst snd].
    + unfold except_Exception, ret. rewrite IH, app_nil_r, <- app_assoc.
      reflexivity.
    + rewrite IH, <- app_assoc. reflexivity.
Qed.

Lemma batch_length (files : list Path) (s : St) :
  List.length (batch' files s) = List.length files.
Proof.
  revert s. induction files as [|f files IH]; intros s; cbn; auto.
Qed.

Lemma batch_nth (files : list Path) (s : St) (i : nat) (f : Path) :
  nth_error files i = Some f ->
  nth_error (batch' files s) i = Some (entry_of' f (state_after' (firstn i files) s)).
Proof.
  revert s i. induction files as [|g files IH]; intros s [|i]; cbn;
    try discriminate.
  - now intros [= ->].
  - apply IH.
Qed.

Lemma batch_trace_nth (files : list Path) (s : St) (i : nat) (f : Path) :
  nth_error files i = Some f ->
  incl (trace_of (attempt' f (state_after' (firstn i files) s)))
       (batch_trace' files s).
Proof.
  revert s i. induction files as [|g files IH]; intros s [|i]; cbn;
    try discriminate.
  - intros [= ->] ev Hin. apply in_or_app. now left.
  - intros Hf ev Hin. apply in_or_app. right. exact (IH _ _ Hf ev Hin).
Qed.

Lemma entry_of_entry_for (f : Path) (s : St) :
  entry_for h source_dir destination_prefix f (entry_of' f s).
Proof.
  unfold entry_of, attempt.
  set (d := GCSUploader.destination_of h destination_prefix
              (relative_path source_dir f)).
  pose proof (upload_file_runs h env bucket_name (str h f) (Some d)
                content_type metadata make_public overwrite s) as R.
  destruct (GCSUploader.upload_file h env bucket_name (str h f) (Some d)
              content_type metadata make_public overwrite s) as [[r s'] t].
  unfold result_of; cbn [fst].
  inversion R; subst; cbn; auto.
Qed.


End DirectoryFacts.

Section DestinationFacts.
Import Pathlib.
Variable h : Host.

Lemma replace_char_app (a b : ascii) (s t : string) :
  replace_char a b (s ++ t) = replace_char a b s ++ replace_char a b t.
Proof. induction s as [|c s IH]; cbn; [reflexivity|]. now rewrite IH. Qed.

Lemma replace_char_concat (a b : ascii) (sp : string) (l : list string) :
  replace_char a b (String.concat sp l)
  = String.concat (replace_char a b sp) (map (replace_char a b) l).
Proof.
  induction l as [|x l IH]; cbn; [reflexivity|].
  destruct l as [|y l]; [reflexivity|].
  cbn [map] in *. now rewrite !replace_char_app, IH.
Qed.

Lemma replace_char_none (a b : ascii) (s : string) :
  a <> b -> has_char a (replace_char a b s) = false.
Proof.
  intros Hab. induction s as [|c s IH]; cbn; [reflexivity|].
  rewrite IH, orb_false_r.
  destruct (Ascii.eqb c a) eqn:E.
  - apply Ascii.eqb_neq. congruence.
  - exact E.
Qed.

Lemma str_nonempty (a : string) (ps : list string) :
  ps <> [] -> str h (mkPath a ps) = a ++ String.concat (sep h) ps.
Proof.
  intros Hne. unfold str; cbn [anchor parts].
  destruct a; [destruct ps; [congruence|reflexivity]|reflexivity].
Qed.

(** The destination derived for a relative path: the components of the
    prefix, then those of the relative path, joined with forward slashes. *)
Lemma destination_of_slash_joined (destination_prefix : string) (rel : Path) :
  sep h = "/" \/ sep h = "\" ->
  anchor rel = "" ->
  parts rel <> [] ->
  GCSUploader.destination_of h destination_prefix rel
  = slash_joined (anchor (prefix_path h destination_prefix))
      (parts (prefix_path h destination_prefix) ++ parts rel).
Proof.
  intros Hsep Ha Hne.
  assert (Hs : replace_char backslash slash (sep h) = "/").
  { destruct Hsep as [-> | ->]; reflexivity. }
  unfold GCSUploader.destination_of, prefix_path, slash_joined.
  destruct rel as [ra rp]; cbn in Ha, Hne; subst ra.
  destruct (destination_prefix =? "")%string; cbn [negb].
  - rewrite str_nonempty by assumption.
    cbn. now rewrite replace_char_concat, Hs.
  - unfold joinpath; cbn [anchor parts]. cbn [String.eqb].
    rewrite str_nonempty.
    + now rewrite replace_char_app, replace_char_concat, Hs.
    + intros E. apply app_eq_nil in E as [_ E]. contradiction.
Qed.

Lemma destination_of_no_backslash (destination_prefix : string) (rel : Path) :
  has_char backslash (GCSUploader.destination_of h destination_prefix rel)
  = false.
Proof.
  unfold GCSUploader.destination_of. apply replace_char_none.
  discriminate.
Qed.

Lemma file_below_is_deeper (d f : Path) :
  is_dir h d = true -> is_file h f = true -> below d f ->
  parts (relative_path d f) <> [] /\
  parts f = (parts d ++ parts (relative_path d f))%list.
Proof.
  intros Hd Hf [Ha [rel Hp]].
  unfold relative_path; cbn [parts].
  rewrite Hp, skipn_app_length. split; [|reflexivity].
  intros ->. rewrite app_nil_r in Hp.
  assert (f = d) by (destruct f, d; cbn in *; congruence).
  subst f. rewrite (is_file_not_dir h d Hf) in Hd. discriminate.
Qed.

Lemma discover_files (d : Path) (pattern : string) (recursive : bool)
    (files : list Path) :
  GCSUploader.discover h d pattern recursive = inr files ->
  Forall (fun f => is_file h f = true) files.
Proof.
  unfold GCSUploader.discover. intros E. apply Forall_forall. intros f Hf.
  destruct (if recursive then _ else _); [discriminate|].
  inversion E; subst. now apply filter_In in Hf as [_ Hf].
Qed.

End DestinationFacts.

Section DirectoryResults.
Import Pathlib.
Context {St : Type}.
Variable h : Host.
Variable env : Env St.
Variables bucket_name source_dir destination_prefix pattern : string.
Variable recursive : bool.
Variable content_type : option string.
Variable metadata : metadata_t.
Variables make_public overwrite : bool.

Local Notation dir := (resolve h (parse_path h source_dir)).
Local Notation upload_directory' :=
  (GCSUploader.upload_directory h env bucket_name source_dir destination_prefix
     pattern recursive content_type metadata make_public overwrite).
Local Notation attempt' :=
  (attempt h env bucket_name dir destination_prefix content_type
     metadata make_public overwrite).
Local Notation entry_of' :=
  (entry_of h env bucket_name dir destination_prefix content_type
     metadata make_public overwrite).
Local Notation batch' :=
  (batch h env bucket_name dir destination_prefix content_type
     metadata make_public overwrite).
Local Notation state_after' :=
  (state_after h env bucket_name dir destination_prefix content_type
     metadata make_public overwrite).
Local Notation batch_trace' :=
  (batch_trace h env bucket_name dir destination_prefix content_type
     metadata make_public overwrite).

(** Over an existing directory whose glob succeeds, [upload_directory]
    returns the batch of the discovered files. *)
Lemma upload_directory_batch (files : list Path) (s : St) :
  exists_ h dir = true ->
  is_dir h dir = true ->
  GCSUploader.discover h dir pattern recursive = inr files ->
  upload_directory' s
  = (inr (batch' files s), state_after' files s, batch_trace' files s).
Proof.
  intros Hex Hdir Hdisc.
  unfold GCSUploader.upload_directory.
  rewrite Hex, Hdir; cbn [negb].
  unfold bind at 1, lift. rewrite Hdisc.
  destruct files as [|f files].
  - reflexivity.
  - rewrite (upload_each_batch h env bucket_name destination_prefix dir
               content_type metadata make_public overwrite (f :: files)
               (discover_below h _ _ _ _ Hdisc) [] s).
    reflexivity.
Qed.



End DirectoryResults.

(* ------------------------------------------------------------------ *)
(** ** Failure isolation, destinations and fail-fast checks *)

Section Orchestrator.
Import Pathlib.
Context {St : Type}.
Variable h : Host.
Variable env : Env St.

Lemma is_file_stat (p : Path) :
  is_file h p = true -> exists size, stat_st_size h p = inr size.
Proof.
  unfold is_file, stat_st_size, node_is_file, node_size.
  destruct (locate h p) as [[st n]|]; [|discriminate].
  destruct (follow n) as [[]|]; try discriminate. eauto.
Qed.

(** C1.  In a directory upload, when the upload of a discovered file
    raises an error, the batch is still returned with one entry per file;
    the entry of that file is an Error entry with the path of the file and
    the message of the error, and every other file has the entry of its
    own attempt.  [upload_file] itself raises the error the storage client
    answered with. *)
Theorem failure_isolation :
  (forall (bucket_name source_dir destination_prefix pattern : string)
          (recursive : bool) (content_type : option string)
          (metadata : metadata_t) (make_public overwrite : bool)
          (files : list Path) (s : St) (i : nat) (f : Path) (e : exn),
      let dir := resolve h (parse_path h source_dir) in
      let before (j : nat) :=
        state_after h env bucket_name dir destination_prefix content_type
          metadata make_public overwrite (firstn j files) s in
      exists_ h dir = true ->
      is_dir h dir = true ->
      GCSUploader.discover h dir pattern recursive = inr files ->
      nth_error files i = Some f ->
      result_of (attempt h env bucket_name dir destination_prefix content_type
                   metadata make_public overwrite f (before i)) = inl e ->
      exists results,
        result_of (GCSUploader.upload_directory h env bucket_name source_dir
                     destination_prefix pattern recursive content_type
                     metadata make_public overwrite s) = inr results /\
        List.length results = List.length files /\
        nth_error results i = Some (Error (str h f) (exn_str e)) /\
        forall (j : nat) (g : Path),
          nth_error files j = Some g ->
          nth_error results j
          = Some (entry_of h env bucket_name dir destination_prefix
                    content_type metadata make_public overwrite g (before j)))
  /\
  (forall (bucket_name source_path : string)
          (destination_blob_name content_type : option string)
          (metadata : metadata_t) (make_public overwrite : bool)
          (s : St) (ev : event) (e : exn),
      In ev (trace_of (GCSUploader.upload_file h env bucket_name source_path
                         destination_blob_name content_type metadata
                         make_public overwrite s)) ->
      event_error ev = Some e ->
      result_of (GCSUploader.upload_file h env bucket_name source_path
                   destination_blob_name content_type metadata make_public
                   overwrite s) = inl e).
Proof.
  split.
  - intros bucket_name source_dir destination_prefix pattern recursive
      content_type metadata make_public overwrite files s i f e dir before
      Hex Hdir Hdisc Hnth Hfail.
    rewrite (upload_directory_batch h env bucket_name source_dir
               destination_prefix pattern recursive content_type metadata
               make_public overwrite files s Hex Hdir Hdisc).
    eexists. unfold result_of at 1; cbn [fst]. split; [reflexivity|].
    split; [apply batch_length|]. split.
    + rewrite (batch_nth _ _ _ _ _ _ _ _ _ _ _ _ _ Hnth).
      unfold entry_of. fold dir. fold (before i). now rewrite Hfail.
    + intros j g Hg. apply batch_nth. exact Hg.
  - intros. eapply client_errors_propagate; eauto.
Qed.


End Orchestrator.

(* ------------------------------------------------------------------ *)
(** ** The generation precondition and the race it closes *)

Section Race.
Import Pathlib Fixtures.
Variable h : Host.
Variables bucket_name source_path : string.
Variables destination_blob_name content_type : option string.
Variable metadata : metadata_t.
Variable make_public : bool.

Local Notation n := (target_name h source_path destination_blob_name).

Lemma find_put_object (b k content : string) (svc : service) :
  find_object b k (put_object b k content svc)
  = Some (mkObject b k content (next_generation svc) false).
Proof.
  unfold find_object, put_object, same_key; cbn.
  now rewrite !String.eqb_refl.
Qed.

(** Another client creates the target after our existence check and before
    our write: the write is refused and the object of the other client
    stays. *)
Lemma lost_race_is_rejected (svc : service) (theirs : string)
    (rest : list (option (string * string * string))) :
  is_file h (source_file h source_path) = true ->
  find_object bucket_name n svc = None ->
  others svc = None :: Some (bucket_name, n, theirs) :: rest ->
  (0 < next_generation svc)%Z ->
  existsb (String.eqb n) (unreachable svc) = false ->
  result_of (GCSUploader.upload_file h cloud bucket_name source_path
               destination_blob_name content_type metadata make_public
               false svc)
  = inl (mkExn GoogleCloudError "412 Precondition Failed") /\
  option_map obj_content
    (find_object bucket_name n
       (state_of (GCSUploader.upload_file h cloud bucket_name source_path
                    destination_blob_name content_type metadata make_public
                    false svc)))
  = Some theirs.
Proof.
  intros Hfile Habsent Hothers Hgen Hreach.
  pose proof (is_file_exists h _ Hfile) as Hex.
  destruct (is_file_stat h _ Hfile) as [size Hstat].
  set (svc1 := mkService (objects svc) (next_generation svc) (unreachable svc)
                 (Some (bucket_name, n, theirs) :: rest) (now svc)).
  set (svc2 := mkService (objects svc) (next_generation svc) (unreachable svc)
                 rest (now svc)).
  assert (Hchk : svc_exists bucket_name n svc = (inr false, svc1)).
  { unfold svc_exists, interleave. rewrite Hothers.
    unfold find_object in *; cbn [objects]. now rewrite Habsent. }
  assert (Hup : forall f ct md,
             svc_upload bucket_name n f ct (Some 0%Z) md svc1
             = (inl (mkExn GoogleCloudError "412 Precondition Failed"),
                put_object bucket_name n theirs svc2)).
  { intros f ct md. unfold svc_upload, interleave, svc1.
    cbn [objects next_generation unreachable others now].
    fold svc2.
    change (unreachable (put_object bucket_name n theirs svc2))
      with (unreachable svc).
    rewrite Hreach.
    unfold current_generation. rewrite find_put_object; cbn [obj_generation].
    change (next_generation svc2) with (next_generation svc).
    destruct (Z.eqb_spec (next_generation svc) 0); [lia|reflexivity]. }
  pose proof (upload_file_runs h cloud bucket_name source_path
                destination_blob_name content_type metadata make_public
                false svc) as R.
  destruct (GCSUploader.upload_file h cloud bucket_name source_path
              destination_blob_name content_type metadata make_public
              false svc) as [[r s'] t].
  unfold result_of, state_of; cbn [fst snd].
  inversion R; subst; clear R;
    repeat match goal with
           | H : checked_absent _ _ _ _ _ _ _ _ _ |- _ =>
               destruct H as [(? & ? & ?) | (? & ? & ?)]; subst;
               try discriminate
           end;
    cbn [blob_exists blob_upload_from_filename cloud write_precondition] in *;
    try congruence.
  all: match goal with
       | H : svc_exists _ _ _ = (inr false, ?s1) |- _ =>
           rewrite Hchk in H; injection H as <-
       end.
  all: match goal with
       | H : svc_upload _ _ _ _ _ _ _ = _ |- _ => rewrite Hup in H
       end; try discriminate.
  match goal with
  | H : (inl _, _) = (inl _, _) |- _ => injection H as <- <-
  end.
  split; [reflexivity|]. now rewrite find_put_object.
Qed.

End Race.

Section Precondition.
Import Pathlib.
Context {St : Type}.
Variable h : Host.
Variable env : Env St.

(** C4.  Every write [upload_file] sends carries no generation
    precondition when [overwrite] is true and the precondition "generation
    0", that is "must not exist yet", when it is false, and a Success
    result was preceded by such a write.  On a storage service that honours
    generation preconditions, a blob created by another client between the
    existence check and the write makes the write fail: the call raises
    and the blob of the other client is left in place. *)
Theorem write_precondition_follows_overwrite :
  (forall (bucket_name source_path : string)
          (destination_blob_name content_type : option string)
          (metadata : metadata_t) (make_public overwrite : bool) (s : St)
          (ev : event) (g : option Z),
      In ev (trace_of (GCSUploader.upload_file h env bucket_name source_path
                         destination_blob_name content_type metadata
                         make_public overwrite s)) ->
      event_precondition ev = Some g ->
      g = if overwrite then None else Some 0%Z)
  /\
  (forall (bucket_name source_path : string)
          (destination_blob_name content_type : option string)
          (metadata : metadata_t) (make_public overwrite : bool) (s : St)
          (r : UploadResult),
      result_of (GCSUploader.upload_file h env bucket_name source_path
                   destination_blob_name content_type metadata make_public
                   overwrite s) = inr r ->
      status r = "success" ->
      exists ev,
        In ev (trace_of (GCSUploader.upload_file h env bucket_name source_path
                           destination_blob_name content_type metadata
                           make_public overwrite s)) /\
        event_precondition ev = Some (if overwrite then None else Some 0%Z))
  /\
  (forall (bucket_name source_path : string)
          (destination_blob_name content_type : option string)
          (metadata : metadata_t) (make_public : bool)
          (svc : Fixtures.service) (theirs : string)
          (rest : list (option (string * string * string))),
      let blob := target_name h source_path destination_blob_name in
      is_file h (source_file h source_path) = true ->
      Fixtures.find_object bucket_name blob svc = None ->
      Fixtures.others svc = None :: Some (bucket_name, blob, theirs) :: rest ->
      (0 < Fixtures.next_generation svc)%Z ->
      existsb (String.eqb blob) (Fixtures.unreachable svc) = false ->
      result_of (GCSUploader.upload_file h Fixtures.cloud bucket_name
                   source_path destination_blob_name content_type metadata
                   make_public false svc)
      = inl (mkExn GoogleCloudError "412 Precondition Failed") /\
      option_map Fixtures.obj_content
        (Fixtures.find_object bucket_name blob
           (state_of (GCSUploader.upload_file h Fixtures.cloud bucket_name
                        source_path destination_blob_name content_type
                        metadata make_public false svc)))
      = Some theirs).
Proof.
  split; [|split].
  - intros bucket_name source_path destination_blob_name content_type
      metadata make_public overwrite s ev g Hin Hg.
    assert (Hup : is_upload ev = true) by (destruct ev; cbn in *; congruence).
    destruct (upload_events_carry_precondition h env bucket_name source_path
                destination_blob_name content_type metadata make_public
                overwrite s ev Hin Hup) as [answer ->].
    cbn in Hg. congruence.
  - intros bucket_name source_path destination_blob_name content_type
      metadata make_public overwrite s r Hr Hs.
    eexists. split.
    + eapply success_has_uploaded; eauto.
    + reflexivity.
  - intros bucket_name source_path destination_blob_name content_type
      metadata make_public svc theirs rest blob Hfile Habsent Hothers Hgen
      Hreach.
    exact (lost_race_is_rejected h bucket_name source_path
             destination_blob_name content_type metadata make_public svc
             theirs rest Hfile Habsent Hothers Hgen Hreach).
Qed.

End Precondition.

(* ------------------------------------------------------------------ *)
(** ** The exit status *)

Section ExitStatus.
Import Pathlib.
Context {St : Type}.
Variable h : Host.
Variable env : Env St.

Lemma main_of_try (args : Args.t) (s : St) :
  fst (fst (Cli.main h env args s))
  = match result_of (Cli.main_try h env args s) with
    | inr o => o
    | inl _ => Return 1
    end.
Proof.
  unfold Cli.main, result_of.
  destruct (Cli.main_try h env args s) as [[[e|o] s'] t]; cbn [fst].
  - destruct (exn_cls e); reflexivity.
  - reflexivity.
Qed.

(** The test of [main] on the batch finds the entries of Error kind. *)
Lemma any_error_entries (results : list UploadResult) :
  existsb (fun r => (status r =? "error")%string) results
  = existsb is_error_entry results.
Proof.
  induction results as [|r results IH]; cbn [existsb]; [reflexivity|].
  rewrite IH. now destruct r.
Qed.

(** [upload_file] never returns an entry of status ["error"]: it raises. *)
Lemma upload_file_status bucket_name source_path destination_blob_name
    content_type metadata make_public overwrite (s : St) (r : UploadResult) :
  result_of (GCSUploader.upload_file h env bucket_name source_path
               destination_blob_name content_type metadata make_public
               overwrite s) = inr r ->
  (status r =? "error")%string = false.
Proof.
  pose proof (upload_file_runs h env bucket_name source_path
                destination_blob_name content_type metadata make_public
                overwrite s) as R.
  destruct (GCSUploader.upload_file h env bucket_name source_path
              destination_blob_name content_type metadata make_public
              overwrite s) as [[r0 s'] t].
  unfold result_of; cbn [fst]. intros ->.
  inversion R; subst; reflexivity.
Qed.

(** C9, as the code has it.  When the uploader cannot be initialised the
    status is 1.  Otherwise it is 2 when [main] stops at [parser.error];
    otherwise it is 1 when the operation selected by the arguments raises
    or when the batch of a directory upload has an entry of Error kind,
    and 0 when the operation returns without such an entry. *)
Theorem exit_status_of_main (args : Args.t) (s : St) :
  let st := exit_status (fst (fst (Cli.main h env args s))) in
  match GCSUploader.__init__ h env (Args.credentials args) None s with
  | (inl _, _, _) => st = 1%Z
  | (inr _, s0, _) =>
      if usage_error args then st = 2%Z
      else if Args.list_buckets args then
        st = status_of_run (result_of (GCSUploader.list_buckets env s0))
               (fun _ => 0%Z)
      else if Args.list_ args then
        st = status_of_run
               (result_of (GCSUploader.list_blobs env (Args.bucket_name args)
                             (Args.prefix args) 100 s0))
               (fun _ => 0%Z)
      else
        let source_path :=
          resolve h (parse_path h (match Args.source args with
                                   | Some src => src
                                   | None => ""
                                   end)) in
        if is_dir h source_path || Args.recursive args then
          st = status_of_run
                 (result_of
                    (GCSUploader.upload_directory h env (Args.bucket_name args)
                       (str h source_path)
                       (match Args.destination args with
                        | Some d => d
                        | None => ""
                        end)
                       (Args.pattern args) (Args.recursive args)
                       (Args.content_type args) None (Args.public args)
                       (negb (Args.no_overwrite args)) s0))
                 (fun results =>
                    if existsb is_error_entry results then 1%Z else 0%Z)
        else
          st = status_of_run
                 (result_of
                    (GCSUploader.upload_file h env (Args.bucket_name args)
                       (str h source_path) (Args.destination args)
                       (Args.content_type args) None (Args.public args)
                       (negb (Args.no_overwrite args)) s0))
                 (fun _ => 0%Z)
  end.
Proof.
  intros st.
  assert (Hst : st = exit_status
            match result_of (Cli.main_try h env args s) with
            | inr o => o
            | inl _ => Return 1
            end) by (subst st; now rewrite main_of_try).
  clearbody st.
  unfold Cli.main_try in Hst. unfold bind at 1 in Hst. unfold usage_error.
  revert Hst.
  destruct (GCSUploader.__init__ h env (Args.credentials args) None s)
    as [[[e|[]] s0] t0]; [now intros ->|].
  destruct (Args.list_buckets args); cbn [negb andb].
  { unfold bind, result_of, status_of_run.
    destruct (GCSUploader.list_buckets env s0) as [[[e|l] s1] t1];
      now intros ->. }
  destruct (Args.bucket_name args =? "")%string; cbn [orb].
  { now intros ->. }
  destruct (Args.list_ args); cbn [negb andb].
  { unfold bind at 1. unfold result_of, status_of_run.
    destruct (GCSUploader.list_blobs env _ _ _ s0) as [[[e|l] s1] t1];
      now intros ->. }
  destruct (Cli.truthy (Args.source args)); cbn [negb].
  2:{ now intros ->. }
  cbv zeta.
  destruct (is_dir h _ || Args.recursive args).
  - unfold bind, result_of, status_of_run, Cli.any_error.
    destruct (GCSUploader.upload_directory h env _ _ _ _ _ _ _ _ _ s0)
      as [[[e|results] s1] t1]; cbn [fst]; [now intros ->|].
    rewrite any_error_entries.
    destruct (existsb _ results); now intros ->.
  - unfold bind, status_of_run.
    pose proof (upload_file_status (Args.bucket_name args)
                  (str h (resolve h (parse_path h
                     (match Args.source args with Some s1 => s1 | None => "" end))))
                  (Args.destination args) (Args.content_type args) None
                  (Args.public args) (negb (Args.no_overwrite args)) s0) as Hst.
    unfold result_of in *.
    destruct (GCSUploader.upload_file h env _ _ _ _ _ _ _ s0)
      as [[[e|r] s1] t1]; cbn [fst] in *; [now intros ->|].
    rewrite (Hst r eq_refl). now intros ->.
Qed.

(** C10, for an upload request: the uploader was initialised, neither
    [--list-buckets] nor [--list] is given and the bucket name is not empty.
    Given [--recursive] on a source that is a regular file, [main] calls
    [upload_directory], which raises [ValueError] because the source is not
    a directory; no request is sent and the status is 1. *)
Theorem recursive_on_a_file_exits_with_1 (args : Args.t) (src : string)
    (s s0 : St) :
  let p := resolve h (parse_path h src) in
  GCSUploader.__init__ h env (Args.credentials args) None s = (inr tt, s0, []) ->
  Args.list_buckets args = false ->
  Args.list_ args = false ->
  Args.bucket_name args <> "" ->
  Args.source args = Some src ->
  src <> "" ->
  Args.recursive args = true ->
  is_file h p = true ->
  resolve h (parse_path h (str h p)) = p ->
  GCSUploader.upload_directory h env (Args.bucket_name args) (str h p)
    (match Args.destination args with Some d => d | None => "" end)
    (Args.pattern args) true (Args.content_type args) None (Args.public args)
    (negb (Args.no_overwrite args)) s0
  = (inl (mkExn ValueError ("Source path is not a directory: " ++ str h p)),
     s0, []) /\
  Cli.main h env args s = (Return 1, s0, []) /\
  exit_status (fst (fst (Cli.main h env args s))) = 1%Z.
Proof.
  intros p Hinit Hlb Hl Hb Hsrc Hne Hrec Hfile Hround.
  assert (Hdir : GCSUploader.upload_directory h env (Args.bucket_name args)
            (str h p)
            (match Args.destination args with Some d => d | None => "" end)
            (Args.pattern args) true (Args.content_type args) None
            (Args.public args) (negb (Args.no_overwrite args)) s0
          = (inl (mkExn ValueError
                    ("Source path is not a directory: " ++ str h p)), s0, [])).
  { unfold GCSUploader.upload_directory. rewrite Hround.
    rewrite (is_file_exists h p Hfile), (is_file_not_dir h p Hfile).
    reflexivity. }
  split; [exact Hdir|].
  assert (Hmain : Cli.main h env args s = (Return 1, s0, [])).
  { unfold Cli.main, Cli.main_try. unfold bind at 1. rewrite Hinit.
    rewrite Hlb, Hl, Hsrc, Hrec.
    destruct (String.eqb_spec (Args.bucket_name args) ""); [contradiction|].
    assert (Ht : Cli.truthy (Some src) = true).
    { clear -Hne. destruct src; [now contradiction Hne|reflexivity]. }
    rewrite Ht; cbn [negb]. rewrite orb_true_r.
    unfold bind. fold p. rewrite Hdir. reflexivity. }
  split; [exact Hmain|]. rewrite Hmain. reflexivity.
Qed.

End ExitStatus.

(* ------------------------------------------------------------------ *)
(** ** File discovery *)

Section Discovery.
Import Pathlib.
Variable h : Host.


















(** ** The directories the recursive wildcard visits *)




(** ** The [yielded] set keeps every path *)

Lemma dedup_paths (l : list Glob.hit) :
  forall (seen : list (list string)) (r : list string),
    In r (map snd (Glob.dedup seen l)) <-> In r (map snd l) /\ ~ In r seen.
Proof.
  induction l as [|x l IH]; intros seen r; cbn [Glob.dedup map In].
  - tauto.
  - destruct (in_dec (list_eq_dec string_dec) (snd x) seen) as [Hs|Hs].
    + rewrite IH. split.
      * intros [H1 H2]. auto.
      * intros [[<-|H1] H2]; [contradiction|auto].
    + cbn [map In]. rewrite IH. cbn [In]. split.
      * intros [<-|[H1 H2]]; auto.
      * intros [[<-|H1] H2]; [auto|].
        destruct (list_eq_dec string_dec (snd x) r) as [E|E]; [auto|].
        right. split; [assumption|]. intros [E'|H3]; auto.
Qed.

(** ** One pattern component, in one directory *)







(** ** The discovered files *)







End Discovery.

(* ------------------------------------------------------------------ *)
(** ** Concrete runs *)

Section Runs.
Import Pathlib Fixtures.

Local Notation a := (mkPath "/" ["a"]).
Local Notation a_x_pdf := (mkPath "/" ["a"; "x.pdf"]).
Local Notation a_x_json := (mkPath "/" ["a"; "x.json"]).
Local Notation a_alias_pdf := (mkPath "/" ["a"; "alias.pdf"]).
Local Notation unavailable := (mkExn GoogleCloudError "503 Service Unavailable").

(** Three files, the upload of the second fails: Success, Error, Success. *)
Example second_of_three_fails :
  result_of (GCSUploader.upload_directory posix cloud "bk" "/a" "docs" "*"
               false None None false true flaky_service)
  = inr [ Success "/a/x.pdf" "docs/x.pdf" "bk" 10 "application/pdf"
            "gs://bk/docs/x.pdf" None "2024-01-01T00:00:00";
          Error "/a/x.json" "503 Service Unavailable";
          Success "/a/alias.pdf" "docs/alias.pdf" "bk" 9 "application/pdf"
            "gs://bk/docs/alias.pdf" None "2024-01-01T00:00:00" ].
Proof. vm_compute. reflexivity. Qed.

Lemma failure_isolation_witness :
  (exists results,
      result_of (GCSUploader.upload_directory posix cloud "bk" "/a" "docs" "*"
                   false None None false true flaky_service) = inr results /\
      List.length results = 3 /\
      nth_error results 1 = Some (Error "/a/x.json" "503 Service Unavailable"))
  /\
  result_of (GCSUploader.upload_file posix cloud "bk" "/a/x.json"
               (Some "docs/x.json") None None false true flaky_service)
  = inl unavailable.
Proof.
  split.
  - destruct (proj1 (failure_isolation posix cloud) "bk" "/a" "docs" "*" false
                None None false true [a_x_pdf; a_x_json; a_alias_pdf]
                flaky_service 1 a_x_json unavailable)
      as (results & H1 & H2 & H3 & _);
      try (vm_compute; reflexivity).
    exists results. repeat split; assumption.
  - apply (proj2 (failure_isolation posix cloud) "bk" "/a/x.json"
             (Some "docs/x.json") None None false true flaky_service
             (EvUpload "bk" "docs/x.json" "/a/x.json" "application/json" None
                None (inl unavailable)) unavailable).
    + vm_compute. left. reflexivity.
    + reflexivity.
Defined.


(** An empty directory gives an empty batch. *)
Example empty_directory_empty_batch :
  GCSUploader.upload_directory posix cloud "bk" "/empty" "" "*" true None None
    false true empty_service = (inr [], empty_service, []).
Proof. vm_compute. reflexivity. Qed.

Lemma existing_blob_is_skipped_witness :
  result_of (GCSUploader.upload_file posix cloud "bk" "/a/x.pdf" None None None
               false false stocked_service)
  = inr (Skipped "blob_exists" "x.pdf") /\
  trace_of (GCSUploader.upload_file posix cloud "bk" "/a/x.pdf" None None None
              false false stocked_service)
  = [EvExists "bk" "x.pdf" (inr true)].
Proof.
  destruct (existing_blob_is_skipped posix cloud "bk" "/a/x.pdf" None None None
              false stocked_service "bk" "x.pdf") as (_ & _ & Hr & Ht).
  - vm_compute. left. reflexivity.
  - split; [exact Hr | exact Ht].
Defined.

Lemma write_precondition_follows_overwrite_witness :
  (Some 0%Z = if false then None else Some 0%Z) /\
  (exists ev,
      In ev (trace_of (GCSUploader.upload_file posix cloud "bk" "/a/x.pdf" None
                         None None false true empty_service)) /\
      event_precondition ev = Some None) /\
  result_of (GCSUploader.upload_file posix cloud "bk" "/a/x.pdf" None None None
               false false contended_service)
  = inl (mkExn GoogleCloudError "412 Precondition Failed").
Proof.
  destruct (write_precondition_follows_overwrite posix cloud) as (H1 & H2 & H3).
  split; [|split].
  - apply (H1 "bk" "/a/x.pdf" None None None false false empty_service
             (EvUpload "bk" "x.pdf" "/a/x.pdf" "application/pdf" (Some 0%Z)
                None (inr tt)) (Some 0%Z)).
    + vm_compute. right. left. reflexivity.
    + reflexivity.
  - apply (H2 "bk" "/a/x.pdf" None None None false true empty_service
             (Success "/a/x.pdf" "x.pdf" "bk" 10 "application/pdf"
                "gs://bk/x.pdf" None "2024-01-01T00:00:00")).
    + vm_compute. reflexivity.
    + reflexivity.
  - apply (H3 "bk" "/a/x.pdf" None None None false contended_service "theirs" []).
    + vm_compute. reflexivity.
    + vm_compute. reflexivity.
    + vm_compute. reflexivity.
    + vm_compute. reflexivity.
    + vm_compute. reflexivity.
Defined.

(** With [overwrite], the same contention ends with our object in place. *)
Example overwrite_wins_the_race :
  option_map obj_content
    (find_object "bk" "x.pdf"
       (state_of (GCSUploader.upload_file posix cloud "bk" "/a/x.pdf" None None
                    None false true
                    (mkService [] 1 [] [Some ("bk", "x.pdf", "theirs")]
                       "2024-01-01T00:00:00"))))
  = Some "/a/x.pdf".
Proof. vm_compute. reflexivity. Qed.

(** Source directory [/a], file [/a/b/c.txt], prefix ["docs"]: the
    destination is [docs/b/c.txt], on a host that separates with slashes and
    on one that separates with backslashes. *)
Example destination_on_both_hosts :
  map result_destination
    (match result_of (GCSUploader.upload_directory posix cloud "bk" "/a" "docs"
                        "c.txt" true None None false true empty_service) with
     | inr results => results
     | inl _ => []
     end) = [Some "docs/b/c.txt"] /\
  map result_destination
    (match result_of (GCSUploader.upload_directory windows cloud "bk" "C:\a"
                        "docs" "c.txt" true None None false true empty_service)
     with
     | inr results => results
     | inl _ => []
     end) = [Some "docs/b/c.txt"] /\
  str windows (relative_path (mkPath "C:\" ["a"]) (mkPath "C:\" ["a"; "b"; "c.txt"]))
  = "b\c.txt".
Proof. vm_compute. auto. Qed.


(** A pattern that ends with a separator selects directories only, so no
    file is discovered; the pattern [..] selects the parent directory, so no
    file is discovered either. *)
Example patterns_that_select_directories :
  GCSUploader.discover posix a "*.pdf/" false = inr [] /\
  GCSUploader.discover posix a "*.pdf/" true = inr [] /\
  GCSUploader.discover posix a "*/" true = inr [] /\
  GCSUploader.discover posix a ".." false = inr [] /\
  GCSUploader.discover posix a ".." true = inr [].
Proof. vm_compute. auto. Qed.

(** Patterns the pattern compiler does not accept. *)
Example patterns_that_raise :
  GCSUploader.discover posix a "" false
  = inl (mkExn ValueError "Unacceptable pattern: ''") /\
  GCSUploader.discover posix a "/x" false
  = inl (mkExn NotImplementedError "Non-relative patterns are unsupported") /\
  GCSUploader.discover posix a "a**" false
  = inl (mkExn ValueError
           "Invalid pattern: '**' can only be an entire path component") /\
  GCSUploader.discover posix a "." false
  = inl (mkExn IndexError "tuple index out of range") /\
  GCSUploader.discover posix a "./" false
  = inl (mkExn AttributeError
           "'_TerminatingSelector' object has no attribute 'select_from'").
Proof. vm_compute. repeat split; reflexivity. Qed.

(** Files [x.pdf] and [x.json], pattern [*.pdf]: only [x.pdf] of the two is
    discovered; directories, dangling links and special files whose name
    matches are left out, a link to a regular file is kept. *)
Example pattern_filtering :
  GCSUploader.discover posix a "*.pdf" false = inr [a_x_pdf; a_alias_pdf] /\
  GCSUploader.discover posix a "*.pdf" true
  = inr [a_x_pdf; a_alias_pdf; mkPath "/" ["a"; "sub"; "y.pdf"]].
Proof. vm_compute. auto. Qed.



Lemma success_fields_witness :
  "/a/x.pdf" = str posix (source_file posix "/a/x.pdf") /\
  "x.pdf" = target_name posix "/a/x.pdf" None /\
  "bk" = "bk" /\
  stat_st_size posix (source_file posix "/a/x.pdf") = inr 10%N /\
  "application/pdf" = target_content_type posix "/a/x.pdf" None /\
  "gs://bk/x.pdf" = "gs://" ++ "bk" ++ "/" ++ "x.pdf" /\
  Some "https://storage.googleapis.com/bk/x.pdf"
  = (if true then Some (blob_public_url cloud "bk" "x.pdf") else None) /\
  "2024-01-01T00:00:00"
  = utcnow_isoformat cloud
      (state_of (GCSUploader.upload_file posix cloud "bk" "/a/x.pdf" None None
                   None true true empty_service)).
Proof.
  apply (success_fields posix cloud "bk" "/a/x.pdf" None None None true true
           empty_service).
  vm_compute. reflexivity.
Defined.

(** No source on the command line: [parser.error] ends the process with
    status 2, which is neither 0 nor 1, and nothing was uploaded. *)
Lemma missing_source_exits_with_2 :
  Cli.main posix cloud default_args empty_service
  = (SystemExit 2, empty_service, []) /\
  exit_status (fst (fst (Cli.main posix cloud default_args empty_service)))
  = 2%Z /\
  ~ (exit_status (fst (fst (Cli.main posix cloud default_args empty_service)))
     = 0%Z \/
     exit_status (fst (fst (Cli.main posix cloud default_args empty_service)))
     = 1%Z).
Proof.
  split; [vm_compute; reflexivity|]. split; [vm_compute; reflexivity|].
  vm_compute. intros [H|H]; discriminate H.
Qed.

(** A batch with an Error entry ends with status 1, a clean one with 0. *)
Example exit_status_of_batches :
  exit_status
    (fst (fst (Cli.main posix cloud
                 (Args.mk "bk" (Some "/a") (Some "docs") None false "*" None
                    false false false false None false)
                 flaky_service))) = 1%Z /\
  exit_status
    (fst (fst (Cli.main posix cloud
                 (Args.mk "bk" (Some "/a") (Some "docs") None false "*" None
                    false false false false None false)
                 empty_service))) = 0%Z /\
  exit_status
    (fst (fst (Cli.main posix cloud
                 (Args.mk "bk" (Some "/empty") None None true "*" None
                    false false false false None false)
                 empty_service))) = 0%Z.
Proof. vm_compute. auto. Qed.

Lemma recursive_on_a_file_exits_with_1_witness :
  Cli.main posix cloud
    (Args.mk "bk" (Some "/a/x.pdf") None None true "*" None false false false
       false None false)
    empty_service
  = (Return 1, empty_service, []) /\
  exit_status
    (fst (fst (Cli.main posix cloud
                 (Args.mk "bk" (Some "/a/x.pdf") None None true "*" None false
                    false false false None false)
                 empty_service))) = 1%Z.
Proof.
  apply (recursive_on_a_file_exits_with_1 posix cloud
           (Args.mk "bk" (Some "/a/x.pdf") None None true "*" None false false
              false false None false)
           "/a/x.pdf" empty_service empty_service);
    try (vm_compute; reflexivity); discriminate.
Defined.

(** The same regular file and [--recursive], with [--list]: the blobs are
    listed, the directory upload is not reached and the status is 0.  With
    an empty bucket name instead, [parser.error] ends the process with
    status 2. *)
Lemma recursive_with_list_exits_with_0 :
  is_file posix (resolve posix (parse_path posix "/a/x.pdf")) = true /\
  Cli.main posix cloud
    (Args.mk "bk" (Some "/a/x.pdf") None None true "*" None false false false
       true None false)
    stocked_service
  = (Return 0, stocked_service,
     [EvListBlobs "bk" None 100 (inr [mkBlobInfo "x.pdf" None None None])]) /\
  exit_status
    (fst (fst (Cli.main posix cloud
                 (Args.mk "bk" (Some "/a/x.pdf") None None true "*" None false
                    false false true None false)
                 stocked_service))) <> 1%Z /\
  Cli.main posix cloud
    (Args.mk "" (Some "/a/x.pdf") None None true "*" None false false false
       false None false)
    empty_service
  = (SystemExit 2, empty_service, []).
Proof.
  split; [vm_compute; reflexivity|]. split; [vm_compute; reflexivity|].
  split; [vm_compute; discriminate|]. vm_compute. reflexivity.
Qed.

End Runs.

(* ------------------------------------------------------------------ *)
(** ** The requests of a single-file upload *)

Section UploadFileRequests.
Import Pathlib.
Context {St : Type}.
Variable h : Host.
Variable env : Env St.
Variables bucket_name source_path : string.
Variables destination_blob_name content_type : option string.
Variable metadata : metadata_t.
Variable make_public : bool.

Local Notation upload_file := (GCSUploader.upload_file h env).
Local Notation src := (source_file h source_path).
Local Notation dst := (target_name h source_path destination_blob_name).

Ltac run_cases overwrite s R :=
  pose proof (upload_file_runs h env bucket_name source_path
                destination_blob_name content_type metadata make_public
                overwrite s) as R;
  destruct (upload_file bucket_name source_path destination_blob_name
              content_type metadata make_public overwrite s) as [[?r ?s'] ?t];
  unfold result_of, state_of, trace_of in *; cbn [fst snd] in *.

Ltac explicit_trace R :=
  inversion R; subst; clear R;
  repeat match goal with
         | H : checked_absent _ _ _ _ _ _ _ _ _ |- _ =>
             destruct H as [(? & ? & ?) | (? & ? & ?)]; subst
         | H : (_ /\ _ /\ _) \/ (_ /\ _ /\ _) |- _ =>
             destruct H as [(? & ? & ?) | (? & ? & ?)]; subst
         end;
  try discriminate; unfold the_upload in *; cbn [app] in *.

Ltac each_event :=
  repeat match goal with
         | H : In _ (_ :: _) |- _ => destruct H as [H|H]
         | H : In _ [] |- _ => destruct H
         | H : _ = ?ev |- _ => is_var ev; subst ev
         end.

(** X1.  One call of [upload_file] sends at most three requests, of which at
    most one is a write.  It never checks for existence when [overwrite] is
    true and never asks to publish when [make_public] is false.  Without
    [overwrite] a write is only sent after the existence check answered
    that the blob is absent, and a request to publish is only sent after
    the service accepted the write. *)
Theorem request_discipline (overwrite : bool) (s : St) :
  let t := trace_of (upload_file bucket_name source_path destination_blob_name
                       content_type metadata make_public overwrite s) in
  List.length t <= 3 /\
  List.length (filter is_upload t) <= 1 /\
  (overwrite = true -> forall ev, In ev t -> is_check ev = false) /\
  (make_public = false -> forall ev, In ev t -> is_publish ev = false) /\
  (overwrite = false ->
   forall ev, In ev t -> is_upload ev = true ->
              In (EvExists bucket_name dst (inr false)) t) /\
  (forall ev, In ev t -> is_publish ev = true ->
              exists w, In w t /\ accepted_write w = true).
Proof.
  run_cases overwrite s R. cbv zeta.
  explicit_trace R;
    (split; [cbn; lia|]); (split; [cbn; lia|]);
    (split; [intros Ho ev Hin; try discriminate Ho; each_event; reflexivity|]);
    (split; [intros Hp ev Hin; try discriminate Hp; each_event; reflexivity|]);
    (split; [intros Ho ev Hin Hu; try discriminate Ho; each_event;
             try discriminate Hu; cbn; auto|]);
    intros ev Hin Hp; each_event; try discriminate Hp;
    match goal with
    | |- exists w, In w ?l /\ accepted_write w = true =>
        match l with
        | context [EvUpload ?b ?n ?f ?c ?g ?m (inr tt)] =>
            exists (EvUpload b n f c g m (inr tt));
            split; [cbn; auto 6|reflexivity]
        end
    end.
Qed.

Lemma upload_file_targets (overwrite : bool) (s : St) (ev : event) :
  In ev (trace_of (upload_file bucket_name source_path destination_blob_name
                     content_type metadata make_public overwrite s)) ->
  event_target ev = Some (bucket_name, dst).
Proof.
  run_cases overwrite s R. intros Hin.
  explicit_trace R; each_event; reflexivity.
Qed.

Lemma upload_file_one_write (overwrite : bool) (s : St) :
  List.length
    (filter is_upload
       (trace_of (upload_file bucket_name source_path destination_blob_name
                    content_type metadata make_public overwrite s))) <= 1.
Proof.
  run_cases overwrite s R. explicit_trace R; cbn; lia.
Qed.

(** Without publishing, a call has an accepted write exactly when it
    returns a Success. *)
Lemma accepted_iff_success (overwrite : bool) (s : St) :
  make_public = false ->
  List.length
    (filter accepted_write
       (trace_of (upload_file bucket_name source_path destination_blob_name
                    content_type metadata make_public overwrite s)))
  = match result_of (upload_file bucket_name source_path
                       destination_blob_name content_type metadata
                       make_public overwrite s) with
    | inr r => if is_success r then 1 else 0
    | inl _ => 0
    end.
Proof.
  run_cases overwrite s R. intros Hp.
  explicit_trace R; reflexivity.
Qed.

(** X2.  Every request of a call of [upload_file] is about the one blob the
    call was given, in the bucket it was given: no other blob is read,
    written or published. *)
Theorem requests_target_the_blob (overwrite : bool) (s : St) (ev : event) :
  In ev (trace_of (upload_file bucket_name source_path destination_blob_name
                     content_type metadata make_public overwrite s)) ->
  event_target ev = Some (bucket_name, dst).
Proof.
  run_cases overwrite s R. intros Hin.
  explicit_trace R; each_event; reflexivity.
Qed.

(** X3.  When [upload_file] raises although the service accepted the write,
    it is the request to publish that failed: [make_public] was asked for
    and the error raised is the one that request was answered with.  The
    blob is then in the bucket while the caller is told of an error. *)
Theorem raised_after_write_is_publish_failure (overwrite : bool) (s : St)
    (e : exn) (w : event) :
  result_of (upload_file bucket_name source_path destination_blob_name
               content_type metadata make_public overwrite s) = inl e ->
  In w (trace_of (upload_file bucket_name source_path destination_blob_name
                    content_type metadata make_public overwrite s)) ->
  accepted_write w = true ->
  make_public = true /\
  In (EvMakePublic bucket_name dst (inl e))
     (trace_of (upload_file bucket_name source_path destination_blob_name
                  content_type metadata make_public overwrite s)).
Proof.
  run_cases overwrite s R. intros Hr Hin Hw. subst r.
  explicit_trace R; each_event; try discriminate Hw;
    (split; [reflexivity|cbn; auto]).
Qed.

(** X4.  Two calls of [upload_file] with the same arguments that both
    succeed return the same Success result up to the time stamp, whatever
    the state of the service at each call. *)
Theorem success_up_to_timestamp (overwrite : bool) (s1 s2 : St)
    (r1 r2 : UploadResult) :
  result_of (upload_file bucket_name source_path destination_blob_name
               content_type metadata make_public overwrite s1) = inr r1 ->
  result_of (upload_file bucket_name source_path destination_blob_name
               content_type metadata make_public overwrite s2) = inr r2 ->
  is_success r1 = true ->
  is_success r2 = true ->
  without_timestamp r1 = without_timestamp r2.
Proof.
  pose proof (upload_file_runs h env bucket_name source_path
                destination_blob_name content_type metadata make_public
                overwrite s1) as R1.
  pose proof (upload_file_runs h env bucket_name source_path
                destination_blob_name content_type metadata make_public
                overwrite s2) as R2.
  destruct (upload_file _ _ _ _ _ _ _ s1) as [[x1 s1'] t1].
  destruct (upload_file _ _ _ _ _ _ _ s2) as [[x2 s2'] t2].
  unfold result_of; cbn [fst]. intros -> -> H1 H2.
  inversion R1; subst; try discriminate H1.
  inversion R2; subst; try discriminate H2.
  cbn. congruence.
Qed.

(** X5.  What a write carries: the resolved source path as file name; the
    content type given, which a guess never replaces, and without one the
    generic binary type when the MIME table has no guess; the metadata
    given when it has an entry, and none for an empty dictionary. *)
Theorem write_payload (overwrite : bool) (s : St)
    (b n f ct : string) (g : option Z) (md : metadata_t) (a : exn + unit) :
  In (EvUpload b n f ct g md a)
     (trace_of (upload_file bucket_name source_path destination_blob_name
                  content_type metadata make_public overwrite s)) ->
  f = str h src /\
  (forall c, content_type = Some c -> ct = c) /\
  (content_type = None -> guess_type h (str h src) = None ->
   ct = "application/octet-stream") /\
  (metadata = Some [] -> md = None) /\
  (forall kv rest, metadata = Some (kv :: rest) -> md = metadata).
Proof.
  intros Hin.
  destruct (upload_events_carry_precondition h env bucket_name source_path
              destination_blob_name content_type metadata make_public
              overwrite s _ Hin eq_refl) as [answer E].
  injection E as -> -> -> -> -> -> ->.
  split; [reflexivity|].
  unfold target_content_type, target_metadata.
  split; [intros c ->; reflexivity|].
  split; [intros -> ->; reflexivity|].
  split; [intros ->; reflexivity|].
  intros kv rest ->. reflexivity.
Qed.

End UploadFileRequests.

(* ------------------------------------------------------------------ *)
(** ** The requests of a directory upload *)

Section DirectoryRequests.
Import Pathlib.
Context {St : Type}.
Variable h : Host.
Variable env : Env St.
Variables bucket_name source_dir destination_prefix pattern : string.
Variable recursive : bool.
Variable content_type : option string.
Variable metadata : metadata_t.
Variables make_public overwrite : bool.

Local Notation dir := (resolve h (parse_path h source_dir)).
Local Notation upload_directory' :=
  (GCSUploader.upload_directory h env bucket_name source_dir destination_prefix
     pattern recursive content_type metadata make_public overwrite).
Local Notation attempt' :=
  (attempt h env bucket_name dir destination_prefix content_type
     metadata make_public overwrite).
Local Notation batch' :=
  (batch h env bucket_name dir destination_prefix content_type
     metadata make_public overwrite).
Local Notation batch_trace' :=
  (batch_trace h env bucket_name dir destination_prefix content_type
     metadata make_public overwrite).
Local Notation destination' :=
  (fun f => GCSUploader.destination_of h destination_prefix
              (relative_path dir f)).

Lemma batch_trace_targets (files : list Path) :
  forall (s : St) (ev : event),
    In ev (batch_trace' files s) ->
    exists f, In f files /\ event_target ev = Some (bucket_name, destination' f).
Proof.
  induction files as [|f files IH]; intros s ev Hin; cbn in Hin; [destruct Hin|].
  apply in_app_or in Hin as [Hin|Hin].
  - exists f. split; [now left|].
    exact (upload_file_targets h env bucket_name (str h f)
             (Some (destination' f)) content_type metadata make_public
             overwrite s ev Hin).
  - destruct (IH _ ev Hin) as (g & Hg & E). exists g. split; [now right|exact E].
Qed.

Lemma batch_trace_writes (files : list Path) :
  forall (s : St),
    List.length (filter is_upload (batch_trace' files s)) <= List.length files.
Proof.
  induction files as [|f files IH]; intros s; cbn; [lia|].
  rewrite filter_app, length_app.
  pose proof (upload_file_one_write h env bucket_name (str h f)
                (Some (destination' f)) content_type metadata make_public
                overwrite s) as H1.
  specialize (IH (state_of (attempt' f s))).
  unfold attempt in *. lia.
Qed.

Lemma batch_trace_successes (files : list Path) :
  make_public = false ->
  forall (s : St),
    List.length (filter accepted_write (batch_trace' files s))
    = List.length (filter is_success (batch' files s)).
Proof.
  intros Hp. induction files as [|f files IH]; intros s; [reflexivity|].
  cbn [batch_trace batch filter].
  rewrite filter_app, length_app, IH.
  unfold entry_of, attempt.
  rewrite (accepted_iff_success h env bucket_name (str h f)
             (Some (destination' f)) content_type metadata make_public
             overwrite s Hp).
  destruct (result_of _) as [e|r]; cbn [is_success]; [reflexivity|].
  destruct (is_success r); reflexivity.
Qed.

(** X6.  Every request of a directory upload is about the destination
    derived for one of the discovered files, in the bucket given: nothing
    else in the bucket is read, written or published. *)
Theorem directory_requests_target_discovered_files (files : list Path)
    (s : St) (ev : event) :
  exists_ h dir = true ->
  is_dir h dir = true ->
  GCSUploader.discover h dir pattern recursive = inr files ->
  In ev (trace_of (upload_directory' s)) ->
  exists f,
    In f files /\
    event_target ev
    = Some (bucket_name,
            GCSUploader.destination_of h destination_prefix
              (relative_path dir f)).
Proof.
  intros Hex Hdir Hdisc.
  rewrite (upload_directory_batch h env bucket_name source_dir
             destination_prefix pattern recursive content_type metadata
             make_public overwrite files s Hex Hdir Hdisc).
  unfold trace_of; cbn [snd]. apply batch_trace_targets.
Qed.

(** X7.  A directory upload sends at most one write per discovered file.
    When nothing is to be published, the writes the service accepted are as
    many as the Success entries of the batch: no accepted write goes
    unreported and no Success is reported without one. *)
Theorem writes_and_successes (files : list Path) (s : St) :
  exists_ h dir = true ->
  is_dir h dir = true ->
  GCSUploader.discover h dir pattern recursive = inr files ->
  List.length (filter is_upload (trace_of (upload_directory' s)))
  <= List.length files /\
  (make_public = false ->
   forall results,
     result_of (upload_directory' s) = inr results ->
     List.length (filter accepted_write (trace_of (upload_directory' s)))
     = List.length (filter is_success results)).
Proof.
  intros Hex Hdir Hdisc.
  rewrite (upload_directory_batch h env bucket_name source_dir
             destination_prefix pattern recursive content_type metadata
             make_public overwrite files s Hex Hdir Hdisc).
  unfold trace_of, result_of; cbn [fst snd]. split.
  - apply batch_trace_writes.
  - intros Hp results [= <-]. now apply batch_trace_successes.
Qed.

End DirectoryRequests.

(* ------------------------------------------------------------------ *)
(** ** Destination names *)

Section Destinations.
Import Pathlib.
Context {St : Type}.
Variable h : Host.
Variable env : Env St.

(** C5.  Without a destination name, [upload_file] does what it does with
    the base name of the resolved source file as destination name: a result
    names that blob and every request is about it.  In a directory upload
    the file at each position is handed to [upload_file] with the
    destination made of the components of the destination prefix, when
    there is one, followed by the components of the path of the file
    relative to the source directory, joined with forward slashes whatever
    the separator of the host, and without any backslash: the entry at that
    position is the outcome of that call, a destination it records is that
    one, and the requests of that call are requests of the directory
    upload, all about that blob. *)
Theorem default_destinations :
  (forall (bucket_name source_path : string) (content_type : option string)
          (metadata : metadata_t) (make_public overwrite : bool) (s : St),
      let dst := name (resolve h (parse_path h source_path)) in
      GCSUploader.upload_file h env bucket_name source_path None content_type
        metadata make_public overwrite s
      = GCSUploader.upload_file h env bucket_name source_path (Some dst)
          content_type metadata make_public overwrite s /\
      (forall r,
          result_of (GCSUploader.upload_file h env bucket_name source_path None
                       content_type metadata make_public overwrite s) = inr r ->
          result_destination r = Some dst) /\
      (forall ev,
          In ev (trace_of (GCSUploader.upload_file h env bucket_name source_path
                             None content_type metadata make_public overwrite
                             s)) ->
          event_target ev = Some (bucket_name, dst)))
  /\
  (forall (bucket_name source_dir destination_prefix pattern : string)
          (recursive : bool) (content_type : option string)
          (metadata : metadata_t) (make_public overwrite : bool)
          (files : list Path) (s : St),
      let dir := resolve h (parse_path h source_dir) in
      let before (i : nat) :=
        state_after h env bucket_name dir destination_prefix content_type
          metadata make_public overwrite (firstn i files) s in
      sep h = "/" \/ sep h = "\" ->
      exists_ h dir = true ->
      is_dir h dir = true ->
      GCSUploader.discover h dir pattern recursive = inr files ->
      exists results,
        result_of (GCSUploader.upload_directory h env bucket_name source_dir
                     destination_prefix pattern recursive content_type
                     metadata make_public overwrite s) = inr results /\
        List.length results = List.length files /\
        forall (i : nat) (f : Path),
          nth_error files i = Some f ->
          exists rel,
            rel <> [] /\
            anchor f = anchor dir /\
            parts f = (parts dir ++ rel)%list /\
            let d := slash_joined (anchor (prefix_path h destination_prefix))
                       (parts (prefix_path h destination_prefix) ++ rel) in
            let call :=
              GCSUploader.upload_file h env bucket_name (str h f) (Some d)
                content_type metadata make_public overwrite (before i) in
            has_char backslash d = false /\
            nth_error results i
            = Some (match result_of call with
                    | inr r => r
                    | inl e => Error (str h f) (exn_str e)
                    end) /\
            (forall r d',
                nth_error results i = Some r ->
                result_destination r = Some d' -> d' = d) /\
            (forall ev,
                In ev (trace_of call) ->
                In ev (trace_of (GCSUploader.upload_directory h env bucket_name
                                   source_dir destination_prefix pattern
                                   recursive content_type metadata make_public
                                   overwrite s)) /\
                event_target ev = Some (bucket_name, d))).
Proof.
  split.
  - intros bucket_name source_path content_type metadata make_public
      overwrite s dst.
    split; [reflexivity|]. split.
    + intros r Hr.
      exact (result_destination_is_target h env bucket_name source_path None
               content_type metadata make_public overwrite s r Hr).
    + intros ev Hev.
      exact (upload_file_targets h env bucket_name source_path None
               content_type metadata make_public overwrite s ev Hev).
  - intros bucket_name source_dir destination_prefix pattern recursive
      content_type metadata make_public overwrite files s dir before Hsep Hex
      Hdir Hdisc.
    rewrite (upload_directory_batch h env bucket_name source_dir
               destination_prefix pattern recursive content_type metadata
               make_public overwrite files s Hex Hdir Hdisc).
    eexists. unfold result_of at 1; cbn [fst]. split; [reflexivity|].
    split; [apply batch_length|].
    intros i f Hnth.
    pose proof (discover_below h _ _ _ _ Hdisc) as Hbelow.
    pose proof (discover_files h _ _ _ _ Hdisc) as Hfiles.
    rewrite Forall_forall in Hbelow, Hfiles.
    pose proof (nth_error_In _ _ Hnth) as Hin.
    specialize (Hbelow f Hin). specialize (Hfiles f Hin).
    cbn beta in Hfiles. fold dir in Hbelow.
    destruct (file_below_is_deeper h dir f Hdir Hfiles Hbelow) as [Hne Hparts].
    exists (parts (relative_path dir f)).
    split; [exact Hne|]. split; [apply Hbelow|]. split; [exact Hparts|].
    cbv zeta.
    rewrite <- (destination_of_slash_joined h destination_prefix
                  (relative_path dir f) Hsep eq_refl Hne).
    pose proof (batch_nth h env bucket_name destination_prefix dir
                  content_type metadata make_public overwrite files s i f Hnth)
      as Hentry.
    fold (before i) in Hentry.
    split; [apply destination_of_no_backslash|].
    split; [exact Hentry|]. split.
    + intros r d' Hr Hd.
      pose proof (eq_trans (eq_sym Hr) Hentry) as E. injection E as ->.
      pose proof (entry_of_entry_for h env bucket_name destination_prefix dir
                    content_type metadata make_public overwrite f (before i))
        as Hfor.
      destruct (entry_of _ _ _ _ _ _ _ _ _ _ _); cbn in Hd, Hfor;
        try discriminate; injection Hd as <-; [apply Hfor | exact Hfor].
    + intros ev Hev. split.
      * unfold trace_of at 1; cbn [snd].
        exact (batch_trace_nth h env bucket_name destination_prefix dir
                 content_type metadata make_public overwrite files s i f Hnth
                 ev Hev).
      * exact (upload_file_targets h env bucket_name (str h f) _
                 content_type metadata make_public overwrite (before i) ev Hev).
Qed.

End Destinations.

(* ------------------------------------------------------------------ *)
(** ** What discovery hands to the loop *)

Section DiscoveryShape.
Import Pathlib.
Variable h : Host.

Lemma dedup_NoDup (l : list Glob.hit) :
  forall seen, NoDup (map snd (Glob.dedup seen l)).
Proof.
  induction l as [|x l IH]; intros seen; cbn [Glob.dedup map].
  - constructor.
  - destruct (in_dec (list_eq_dec string_dec) (snd x) seen) as [Hs|Hs].
    + apply IH.
    + cbn [map]. constructor; [|apply IH].
      intros Hin. apply dedup_paths in Hin as [_ Hn].
      apply Hn. now left.
Qed.

Lemma NoDup_map_injective {A B} (f : A -> B) (l : list A) :
  (forall x y, f x = f y -> x = y) -> NoDup l -> NoDup (map f l).
Proof.
  intros Hf. induction 1 as [|x l Hx _ IH]; cbn; constructor; [|exact IH].
  intros Hin. apply in_map_iff in Hin as (y & E & Hy).
  apply Hf in E. now subst.
Qed.

(** X9.  With [recursive], the list of discovered paths holds no path
    twice, whatever the pattern and the tree: the recursive selector keeps
    the set of the paths it has yielded.  The paths are compared as written;
    two different paths may lead to the same file, as [b/../x.pdf] and
    [sub/../x.pdf] do. *)
Theorem recursive_discovery_has_no_duplicates (d : Path) (pattern : string)
    (files : list Path) :
  GCSUploader.discover h d pattern true = inr files -> NoDup files.
Proof.
  unfold GCSUploader.discover, Glob.rglob.
  destruct (negb _); [discriminate|].
  destruct (Glob.make_selector _); [discriminate|].
  intros [= <-]. apply NoDup_filter.
  unfold Glob.select.
  destruct (locate h d) as [[stack n]|]; [|constructor].
  destruct (node_is_dir n); [|constructor].
  change (Glob.select_from h ("**" :: Glob.pattern_parts h pattern)
            (stack, n, []))
    with (Glob.dedup []
            (flat_map (Glob.select_from h (Glob.pattern_parts h pattern))
               (Glob.iterate_directories (stack, n, [])))).
  set (hits := Glob.dedup [] _).
  assert (E : map (fun x : Glob.hit => mkPath (anchor d) (parts d ++ snd x)) hits
              = map (fun rel => mkPath (anchor d) (parts d ++ rel))
                  (map snd hits)) by (now rewrite map_map).
  rewrite E.
  apply NoDup_map_injective; [|apply dedup_NoDup].
  intros x y [= Exy]. now apply app_inv_head in Exy.
Qed.

(** X10.  Whatever the pattern, every discovered path is a regular file (or
    a link to one) whose components extend those of the source directory by
    at least one, so that [relative_to] does not raise on it and the source
    directory itself is never uploaded. *)
Theorem discovered_are_files_below (d : Path) (pattern : string)
    (recursive : bool) (files : list Path) :
  is_dir h d = true ->
  GCSUploader.discover h d pattern recursive = inr files ->
  Forall (fun f =>
            is_file h f = true /\
            exists rel,
              rel <> [] /\
              f = mkPath (anchor d) (parts d ++ rel) /\
              relative_to h f d = inr (mkPath "" rel)) files.
Proof.
  intros Hdir Hdisc.
  pose proof (discover_below h _ _ _ _ Hdisc) as Hbelow.
  pose proof (discover_files h _ _ _ _ Hdisc) as Hfiles.
  rewrite Forall_forall in *. intros f Hf.
  specialize (Hbelow f Hf). specialize (Hfiles f Hf). cbn beta in Hfiles.
  split; [exact Hfiles|].
  destruct (file_below_is_deeper h d f Hdir Hfiles Hbelow) as [Hne Hparts].
  exists (parts (relative_path d f)).
  split; [exact Hne|]. split.
  - destruct Hbelow as [Ha _]. destruct f as [fa fp]; cbn in *. congruence.
  - now apply relative_to_below.
Qed.

End DiscoveryShape.

(* ------------------------------------------------------------------ *)
(** ** Destinations do not collide *)

Section Collisions.
Import Pathlib.
Variable h : Host.

Lemma has_char_app (c : ascii) (s t : string) :
  has_char c (s ++ t) = has_char c s || has_char c t.
Proof.
  induction s as [|d s IH]; cbn; [reflexivity|].
  now rewrite IH, orb_assoc.
Qed.

Lemma replace_char_clean (s : string) :
  has_char backslash s = false -> replace_char backslash slash s = s.
Proof.
  induction s as [|c s IH]; cbn; [reflexivity|].
  intros H. apply orb_false_iff in H as [Hc Hs].
  now rewrite Hc, IH.
Qed.

(** Two strings free of a character that agree up to and after that
    character are equal piece by piece. *)
Lemma split_at_first (c : ascii) (x y r1 r2 : string) :
  has_char c x = false ->
  has_char c y = false ->
  x ++ String c r1 = y ++ String c r2 ->
  x = y /\ r1 = r2.
Proof.
  revert y. induction x as [|a x IH]; intros [|b y] Hx Hy E; cbn in *.
  - injection E as ->. auto.
  - injection E as <- _. apply orb_false_iff in Hy as [Hb _].
    now rewrite Ascii.eqb_refl in Hb.
  - injection E as -> _. apply orb_false_iff in Hx as [Ha _].
    now rewrite Ascii.eqb_refl in Ha.
  - injection E as -> E.
    apply orb_false_iff in Hx as [_ Hx]. apply orb_false_iff in Hy as [_ Hy].
    destruct (IH y Hx Hy E) as [-> ->]. auto.
Qed.

Lemma concat_cons2 (sp x y : string) (l : list string) :
  String.concat sp (x :: y :: l) = x ++ sp ++ String.concat sp (y :: l).
Proof. reflexivity. Qed.

Lemma concat_slash_injective (l1 : list string) :
  forall l2,
    l1 <> [] -> l2 <> [] ->
    Forall (fun c => has_char slash c = false) l1 ->
    Forall (fun c => has_char slash c = false) l2 ->
    String.concat "/" l1 = String.concat "/" l2 ->
    l1 = l2.
Proof.
  induction l1 as [|x l1 IH]; intros [|y l2] H1 H2 F1 F2 E; try congruence.
  inversion F1 as [|? ? Hx F1']; inversion F2 as [|? ? Hy F2']; subst.
  destruct l1 as [|x' l1], l2 as [|y' l2].
  - cbn in E. now subst.
  - change (String.concat "/" [x]) with x in E. rewrite concat_cons2 in E.
    exfalso. subst x. rewrite has_char_app in Hx.
    apply orb_false_iff in Hx as [_ Hx]. cbn in Hx. discriminate.
  - change (String.concat "/" [y]) with y in E. rewrite concat_cons2 in E.
    exfalso. subst y. rewrite has_char_app in Hy.
    apply orb_false_iff in Hy as [_ Hy]. cbn in Hy. discriminate.
  - rewrite !concat_cons2 in E.
    destruct (split_at_first slash x y _ _ Hx Hy E) as [-> E'].
    f_equal. apply IH; auto; discriminate.
Qed.

Lemma append_associative (a b c : string) : (a ++ b) ++ c = a ++ (b ++ c).
Proof. induction a as [|x a IH]; cbn; [reflexivity|]. now rewrite IH. Qed.

Lemma concat_app_nonempty (sp : string) (p l : list string) :
  p <> [] -> l <> [] ->
  String.concat sp (p ++ l) = String.concat sp p ++ sp ++ String.concat sp l.
Proof.
  intros Hp Hl. induction p as [|x p IH]; [congruence|].
  destruct p as [|y p].
  - destruct l as [|z l]; [congruence|]. reflexivity.
  - cbn [app]. rewrite !concat_cons2.
    cbn [app] in IH. rewrite IH by discriminate.
    now rewrite !append_associative.
Qed.

Lemma append_inv_head (a x y : string) : a ++ x = a ++ y -> x = y.
Proof. induction a as [|c a IH]; cbn; [auto|]. intros [= E]. auto. Qed.

Lemma map_replace_clean (l : list string) :
  Forall (fun c => clean c = true) l ->
  map (replace_char backslash slash) l = l /\
  Forall (fun c => has_char slash c = false) l.
Proof.
  induction 1 as [|c l Hc _ [IH1 IH2]]; cbn; [auto|].
  unfold clean in Hc. apply andb_prop in Hc as [Hs Hb].
  apply negb_true_iff in Hs, Hb.
  rewrite (replace_char_clean c Hb), IH1. auto.
Qed.

(** X11.  Under one destination prefix, two relative paths whose components
    hold neither a slash nor a backslash get the same destination only if
    they are the same path: files of one batch do not overwrite each
    other. *)
Theorem destinations_do_not_collide (destination_prefix : string)
    (rel1 rel2 : list string) :
  sep h = "/" \/ sep h = "\" ->
  rel1 <> [] -> rel2 <> [] ->
  Forall (fun c => clean c = true) rel1 ->
  Forall (fun c => clean c = true) rel2 ->
  GCSUploader.destination_of h destination_prefix (mkPath "" rel1)
  = GCSUploader.destination_of h destination_prefix (mkPath "" rel2) ->
  rel1 = rel2.
Proof.
  intros Hsep H1 H2 C1 C2.
  rewrite !destination_of_slash_joined by (auto; cbn; auto).
  cbn [parts]. unfold slash_joined. intros E.
  apply append_inv_head in E.
  destruct (map_replace_clean rel1 C1) as [M1 S1].
  destruct (map_replace_clean rel2 C2) as [M2 S2].
  rewrite !map_app, M1, M2 in E.
  set (p := map (replace_char backslash slash)
              (parts (prefix_path h destination_prefix))) in *.
  destruct p as [|x p].
  - cbn [app] in E. now apply concat_slash_injective.
  - rewrite !concat_app_nonempty in E by (auto; discriminate).
    apply append_inv_head in E. cbn in E. injection E as E.
    now apply concat_slash_injective.
Qed.

End Collisions.

(* ------------------------------------------------------------------ *)
(** ** The command line: credentials, listing, rejected patterns *)

Section CommandLine.
Import Pathlib.
Context {St : Type}.
Variable h : Host.
Variable env : Env St.

Lemma is_dir_exists (p : Path) : is_dir h p = true -> exists_ h p = true.
Proof.
  unfold is_dir, exists_, node_is_dir, node_exists.
  destruct (locate h p) as [[st n]|]; [|discriminate].
  destruct (follow n) as [[]|]; congruence.
Qed.

(** X12.  The credentials file is checked before anything else: when the
    path given with [--credentials] (or, without one, [upload.json] beside
    the script) is not a regular file, [main] returns 1 without a request
    and without connecting, whatever the other arguments, also those for
    which it would otherwise stop at [parser.error] with status 2. *)
Theorem credentials_are_checked_first (args : Args.t) (s : St) :
  is_file h
    (match Args.credentials args with
     | None | Some EmptyString => GCSUploader.DEFAULT_CREDENTIALS_PATH h
     | Some p => parse_path h p
     end) = false ->
  Cli.main h env args s = (Return 1, s, []).
Proof.
  intros Hf.
  unfold Cli.main, Cli.main_try. unfold bind at 1.
  unfold GCSUploader.__init__. unfold bind at 1.
  unfold GCSUploader._validate_credentials.
  destruct (exists_ h _); cbn [negb].
  - rewrite Hf. reflexivity.
  - reflexivity.
Qed.

(** X13.  Once the uploader is initialised, [--list-buckets] makes [main]
    send the one request that lists the buckets and nothing else, whatever
    the other arguments: no blob is checked, written or published even when
    a source is given, and an empty bucket name is no usage error.  Without
    it, [--list] with a bucket name sends the one request that lists the
    blobs, with the prefix given and at most 100 results, and nothing else.
    The status is 0 when the listing succeeds and 1 when it fails. *)
Theorem listing_sends_one_request (args : Args.t) (s s0 : St) :
  GCSUploader.__init__ h env (Args.credentials args) None s = (inr tt, s0, []) ->
  (Args.list_buckets args = true ->
   Cli.main h env args s
   = (Return (match fst (client_list_buckets env s0) with
              | inr _ => 0%Z
              | inl _ => 1%Z
              end),
      snd (client_list_buckets env s0),
      [EvListBuckets (fst (client_list_buckets env s0))])) /\
  (Args.list_buckets args = false ->
   Args.bucket_name args <> "" ->
   Args.list_ args = true ->
   let answer :=
     bucket_list_blobs env (Args.bucket_name args) (Args.prefix args) 100 s0 in
   Cli.main h env args s
   = (Return (match fst answer with inr _ => 0%Z | inl _ => 1%Z end),
      snd answer,
      [EvListBlobs (Args.bucket_name args) (Args.prefix args) 100 (fst answer)])).
Proof.
  intros Hinit. split.
  - intros Hlb. unfold Cli.main, Cli.main_try. unfold bind at 1.
    rewrite Hinit, Hlb. unfold bind, GCSUploader.list_buckets.
    destruct (client_list_buckets env s0) as [[e|l] s1]; cbn [fst snd app].
    + destruct (exn_cls e); reflexivity.
    + reflexivity.
  - intros Hlb Hb Hl answer. subst answer.
    unfold Cli.main, Cli.main_try. unfold bind at 1.
    rewrite Hinit, Hlb, Hl.
    destruct (String.eqb_spec (Args.bucket_name args) ""); [contradiction|].
    unfold bind at 1. unfold GCSUploader.list_blobs. unfold bind at 1.
    destruct (bucket_list_blobs env _ _ _ s0) as [[e|l] s1]; cbn [fst snd app].
    + destruct (exn_cls e); reflexivity.
    + reflexivity.
Qed.

(** X8.  A pattern the glob rejects is not isolated like the failure of a
    file: [upload_directory] raises the error of the glob before any
    request and returns no batch, and [main] returns 1. *)
Theorem rejected_pattern_aborts_the_batch (args : Args.t) (src : string)
    (s s0 : St) (e : exn) :
  let p := resolve h (parse_path h src) in
  GCSUploader.__init__ h env (Args.credentials args) None s = (inr tt, s0, []) ->
  Args.list_buckets args = false ->
  Args.list_ args = false ->
  Args.bucket_name args <> "" ->
  Args.source args = Some src ->
  src <> "" ->
  is_dir h p = true ->
  resolve h (parse_path h (str h p)) = p ->
  GCSUploader.discover h p (Args.pattern args) (Args.recursive args) = inl e ->
  GCSUploader.upload_directory h env (Args.bucket_name args) (str h p)
    (match Args.destination args with Some d => d | None => "" end)
    (Args.pattern args) (Args.recursive args) (Args.content_type args) None
    (Args.public args) (negb (Args.no_overwrite args)) s0
  = (inl e, s0, []) /\
  Cli.main h env args s = (Return 1, s0, []).
Proof.
  intros p Hinit Hlb Hl Hb Hsrc Hne Hdir Hround Hdisc.
  assert (Hup : GCSUploader.upload_directory h env (Args.bucket_name args)
            (str h p)
            (match Args.destination args with Some d => d | None => "" end)
            (Args.pattern args) (Args.recursive args) (Args.content_type args)
            None (Args.public args) (negb (Args.no_overwrite args)) s0
          = (inl e, s0, [])).
  { unfold GCSUploader.upload_directory. rewrite Hround.
    rewrite (is_dir_exists p Hdir), Hdir. cbn [negb].
    unfold bind, lift. now rewrite Hdisc. }
  split; [exact Hup|].
  unfold Cli.main, Cli.main_try. unfold bind at 1. rewrite Hinit.
  rewrite Hlb, Hl, Hsrc.
  destruct (String.eqb_spec (Args.bucket_name args) ""); [contradiction|].
  assert (Ht : Cli.truthy (Some src) = true).
  { clear -Hne. destruct src; [now contradiction Hne|reflexivity]. }
  rewrite Ht; cbn [negb]. fold p. rewrite Hdir. cbn [orb].
  unfold bind. rewrite Hup. cbn [app].
  destruct (exn_cls e); reflexivity.
Qed.

End CommandLine.

(* ------------------------------------------------------------------ *)
(** ** Upload, then upload again without overwriting *)

Section Twice.
Import Pathlib Fixtures.
Variable h : Host.
Variables bucket_name source_path : string.
Variables destination_blob_name content_type : option string.
Variable metadata : metadata_t.

Local Notation n := (target_name h source_path destination_blob_name).
Local Notation src := (source_file h source_path).

Lemma interleave_idle (svc : service) : others svc = [] -> interleave svc = svc.
Proof. unfold interleave. now intros ->. Qed.

Lemma svc_upload_unconditional (svc : service) (f ct : string) (md : metadata_t) :
  others svc = [] ->
  existsb (String.eqb n) (unreachable svc) = false ->
  svc_upload bucket_name n f ct None md svc
  = (inr tt, put_object bucket_name n f svc).
Proof.
  intros Ho Hr. unfold svc_upload. rewrite (interleave_idle svc Ho), Hr.
  reflexivity.
Qed.

Lemma svc_exists_present (svc : service) (o : object) :
  others svc = [] ->
  find_object bucket_name n svc = Some o ->
  svc_exists bucket_name n svc = (inr true, svc).
Proof.
  intros Ho Hf. unfold svc_exists. rewrite (interleave_idle svc Ho), Hf.
  reflexivity.
Qed.

(** The first upload, with [overwrite]: it succeeds and leaves our object. *)
Lemma first_upload (svc : service) :
  is_file h src = true ->
  others svc = [] ->
  existsb (String.eqb n) (unreachable svc) = false ->
  exists r,
    GCSUploader.upload_file h cloud bucket_name source_path
      destination_blob_name content_type metadata false true svc
    = (inr r, put_object bucket_name n (str h src) svc,
       [EvUpload bucket_name n (str h src)
          (target_content_type h source_path content_type) None
          (target_metadata metadata) (inr tt)]) /\
    is_success r = true.
Proof.
  intros Hfile Ho Hr.
  pose proof (upload_file_runs h cloud bucket_name source_path
                destination_blob_name content_type metadata false true svc) as R.
  destruct (GCSUploader.upload_file h cloud bucket_name source_path
              destination_blob_name content_type metadata false true svc)
    as [[r s'] t].
  destruct (is_file_stat h _ Hfile) as [size Hstat].
  inversion R; subst; clear R;
    repeat match goal with
           | H : checked_absent _ _ _ _ _ _ _ _ _ |- _ =>
               destruct H as [(? & ? & ?) | (? & ? & ?)]; subst
           | H : (_ /\ _ /\ _) \/ (_ /\ _ /\ _) |- _ =>
               destruct H as [(? & ? & ?) | (? & ? & ?)]; subst
           end;
    try discriminate; try congruence;
    try (pose proof (is_file_exists h _ Hfile); congruence);
    cbn [blob_upload_from_filename cloud write_precondition] in *;
    match goal with
    | H : svc_upload _ _ _ _ _ _ _ = _ |- _ =>
        rewrite (svc_upload_unconditional svc _ _ _ Ho Hr) in H
    end; try discriminate.
  match goal with
  | H : (inr tt, _) = (inr tt, _) |- _ => injection H as <-
  end.
  eexists. split; reflexivity.
Qed.

(** X14.  On a storage service that keeps what it is given and runs no
    other client, a file uploaded with [overwrite] and then uploaded again
    without it is Skipped the second time: the second call sends the
    existence check alone and leaves the service as the first call left
    it, with the object of the first call in place. *)
Theorem second_upload_without_overwrite_is_skipped (svc : service)
    (make_public : bool) :
  is_file h src = true ->
  others svc = [] ->
  existsb (String.eqb n) (unreachable svc) = false ->
  let first :=
    GCSUploader.upload_file h cloud bucket_name source_path
      destination_blob_name content_type metadata false true svc in
  let second :=
    GCSUploader.upload_file h cloud bucket_name source_path
      destination_blob_name content_type metadata make_public false
      (state_of first) in
  second
  = (inr (Skipped "blob_exists" n), state_of first,
     [EvExists bucket_name n (inr true)]) /\
  option_map obj_content (find_object bucket_name n (state_of second))
  = Some (str h src).
Proof.
  intros Hfile Ho Hr first second.
  destruct (first_upload svc Hfile Ho Hr) as (r & E & _).
  subst first second. rewrite E. unfold state_of; cbn [fst snd].
  set (svc1 := put_object bucket_name n (str h src) svc).
  assert (Ho1 : others svc1 = []) by exact Ho.
  pose proof (find_put_object bucket_name n (str h src) svc) as Hfind.
  fold svc1 in Hfind.
  pose proof (upload_file_runs h cloud bucket_name source_path
                destination_blob_name content_type metadata make_public false
                svc1) as R.
  destruct (GCSUploader.upload_file h cloud bucket_name source_path
              destination_blob_name content_type metadata make_public false
              svc1) as [[r2 s2] t2].
  inversion R; subst; clear R;
    repeat match goal with
           | H : checked_absent _ _ _ _ _ _ _ _ _ |- _ =>
               destruct H as [(? & ? & ?) | (? & ? & ?)]; subst
           end;
    try discriminate; try congruence;
    try (pose proof (is_file_exists h _ Hfile); congruence);
    cbn [blob_exists cloud] in *;
    match goal with
    | H : svc_exists _ _ _ = _ |- _ =>
        rewrite (svc_exists_present svc1 _ Ho1 Hfind) in H
    end; try discriminate.
  match goal with
  | H : (inr true, _) = (inr true, _) |- _ => injection H as <-
  end.
  split; [reflexivity|]. cbn [fst snd]. now rewrite Hfind.
Qed.

End Twice.

(* ------------------------------------------------------------------ *)
(** ** The summary *)

Section Summary.
Import Pathlib.
Context {St : Type}.
Variable h : Host.
Variable env : Env St.
Variables bucket_name source_dir destination_prefix pattern : string.
Variable recursive : bool.
Variable content_type : option string.
Variable metadata : metadata_t.
Variables make_public overwrite : bool.

Lemma count_status_cons (st : string) (r : UploadResult)
    (results : list UploadResult) :
  count_status st (r :: results)
  = (if (status r =? st)%string then 1 else 0) + count_status st results.
Proof.
  unfold count_status. cbn [filter].
  destruct (status r =? st)%string; reflexivity.
Qed.

Ltac decide_statuses :=
  repeat match goal with
         | |- context [(?a =? ?b)%string] =>
             let v := eval vm_compute in (a =? b)%string in
             change (a =? b)%string with v
         end.

Lemma counts_add_up (results : list UploadResult) :
  successful results + skipped results + failed results = List.length results.
Proof.
  unfold successful, skipped, failed.
  induction results as [|r results IH]; [reflexivity|].
  rewrite !count_status_cons. cbn [List.length].
  destruct r; cbn [status]; decide_statuses; cbv iota; lia.
Qed.

Lemma failed_none (results : list UploadResult) :
  failed results = 0 <-> Cli.any_error results = false.
Proof.
  unfold failed, Cli.any_error.
  induction results as [|r results IH]; [cbn; tauto|].
  rewrite count_status_cons. cbn [existsb].
  destruct r; cbn [status]; decide_statuses; cbv iota; cbn [orb Nat.add];
    try exact IH.
  split; [lia|discriminate].
Qed.

(** X15.  The three counts of the summary of a directory upload add up to
    the number of discovered files, and the count of failures is zero
    exactly when [main] finds no error in the batch, that is when it
    returns 0 for it. *)
Theorem summary_adds_up (files : list Path) (s : St)
    (results : list UploadResult) :
  exists_ h (resolve h (parse_path h source_dir)) = true ->
  is_dir h (resolve h (parse_path h source_dir)) = true ->
  GCSUploader.discover h (resolve h (parse_path h source_dir)) pattern recursive
  = inr files ->
  result_of (GCSUploader.upload_directory h env bucket_name source_dir
               destination_prefix pattern recursive content_type metadata
               make_public overwrite s) = inr results ->
  successful results + skipped results + failed results = List.length files /\
  (failed results = 0 <-> Cli.any_error results = false).
Proof.
  intros Hex Hdir Hdisc.
  rewrite (upload_directory_batch h env bucket_name source_dir
             destination_prefix pattern recursive content_type metadata
             make_public overwrite files s Hex Hdir Hdisc).
  unfold result_of; cbn [fst]. intros [= <-]. split.
  - rewrite counts_add_up. apply batch_length.
  - apply failed_none.
Qed.

End Summary.

(* ------------------------------------------------------------------ *)
(** ** More concrete runs *)

Section MoreRuns.
Import Pathlib Fixtures Scenarios.

Local Notation a := (mkPath "/" ["a"]).
Local Notation later_service :=
  (mkService [] 1 [] [] "2025-06-01T12:00:00").
Local Notation upload_args :=
  (Args.mk "bk" (Some "/a") (Some "docs") None false "*" None false false false
     false None false).

Lemma default_destinations_witness :
  GCSUploader.upload_file posix cloud "bk" "/a/x.pdf" None None None false true
    empty_service
  = GCSUploader.upload_file posix cloud "bk" "/a/x.pdf" (Some "x.pdf") None
      None false true empty_service
  /\
  exists results,
    result_of (GCSUploader.upload_directory posix cloud "bk" "/a" "docs"
                 "*.txt" true None None false true empty_service)
    = inr results /\
    nth_error results 0
    = Some (Success "/a/b/c.txt" "docs/b/c.txt" "bk" 3 "text/plain"
              "gs://bk/docs/b/c.txt" None "2024-01-01T00:00:00") /\
    In (EvUpload "bk" "docs/b/c.txt" "/a/b/c.txt" "text/plain" None None
          (inr tt))
       (trace_of (GCSUploader.upload_directory posix cloud "bk" "/a" "docs"
                    "*.txt" true None None false true empty_service)).
Proof.
  destruct (default_destinations posix cloud) as [H1 H2].
  split.
  - exact (proj1 (H1 "bk" "/a/x.pdf" None None false true empty_service)).
  - destruct (H2 "bk" "/a" "docs" "*.txt" true None None false true
                [mkPath "/" ["a"; "b"; "c.txt"]; mkPath "/" ["a"; "sub"; "z.txt"]]
                empty_service)
      as (results & Hres & _ & Hall).
    + left. reflexivity.
    + vm_compute. reflexivity.
    + vm_compute. reflexivity.
    + vm_compute. reflexivity.
    + exists results. split; [exact Hres|].
      destruct (Hall 0 (mkPath "/" ["a"; "b"; "c.txt"]) eq_refl)
        as (rel & _ & _ & Hp & _ & Hnth & _ & Hev).
      vm_compute in Hp. injection Hp as <-.
      split.
      * rewrite Hnth. vm_compute. reflexivity.
      * apply Hev. vm_compute. left. reflexivity.
Defined.

Lemma request_discipline_witness :
  In (EvExists "bk" "x.pdf" (inr false))
     (trace_of (GCSUploader.upload_file posix cloud "bk" "/a/x.pdf" None None
                  None true false empty_service)) /\
  (exists w,
      In w (trace_of (GCSUploader.upload_file posix cloud "bk" "/a/x.pdf" None
                        None None true false empty_service)) /\
      accepted_write w = true) /\
  (forall ev,
      In ev (trace_of (GCSUploader.upload_file posix cloud "bk" "/a/x.pdf" None
                         None None false true stocked_service)) ->
      is_check ev = false /\ is_publish ev = false).
Proof.
  destruct (request_discipline posix cloud "bk" "/a/x.pdf" None None None true
              false empty_service) as (_ & _ & _ & _ & H5 & H6).
  destruct (request_discipline posix cloud "bk" "/a/x.pdf" None None None false
              true stocked_service) as (_ & _ & H3 & H4 & _ & _).
  split; [|split].
  - apply (H5 eq_refl
             (EvUpload "bk" "x.pdf" "/a/x.pdf" "application/pdf" (Some 0%Z) None
                (inr tt))).
    + vm_compute. right. left. reflexivity.
    + reflexivity.
  - apply (H6 (EvMakePublic "bk" "x.pdf" (inr tt))).
    + vm_compute. right. right. left. reflexivity.
    + reflexivity.
  - intros ev Hin. split; [apply (H3 eq_refl ev Hin)|apply (H4 eq_refl ev Hin)].
Defined.

Lemma requests_target_the_blob_witness :
  event_target (EvMakePublic "bk" "x.pdf" (inr tt))
  = Some ("bk", target_name posix "/a/x.pdf" None).
Proof.
  apply (requests_target_the_blob posix cloud "bk" "/a/x.pdf" None None None
           true false empty_service).
  vm_compute. right. right. left. reflexivity.
Defined.

Lemma raised_after_write_is_publish_failure_witness :
  true = true /\
  In (EvMakePublic "bk" (target_name posix "/a/x.pdf" None)
        (inl (mkExn GoogleCloudError "400 Bad Request")))
     (trace_of (GCSUploader.upload_file posix uniform_access "bk" "/a/x.pdf"
                  None None None true true empty_service)).
Proof.
  apply (raised_after_write_is_publish_failure posix uniform_access "bk"
           "/a/x.pdf" None None None true true empty_service
           (mkExn GoogleCloudError "400 Bad Request")
           (EvUpload "bk" "x.pdf" "/a/x.pdf" "application/pdf" None None
              (inr tt))).
  - vm_compute. reflexivity.
  - vm_compute. left. reflexivity.
  - reflexivity.
Defined.

(** The blob a failed publication leaves behind. *)
Example written_but_reported_as_error :
  result_of (GCSUploader.upload_file posix uniform_access "bk" "/a/x.pdf" None
               None None true true empty_service)
  = inl (mkExn GoogleCloudError "400 Bad Request") /\
  option_map obj_content
    (find_object "bk" "x.pdf"
       (state_of (GCSUploader.upload_file posix uniform_access "bk" "/a/x.pdf"
                    None None None true true empty_service)))
  = Some "/a/x.pdf".
Proof. vm_compute. auto. Qed.

Lemma success_up_to_timestamp_witness :
  without_timestamp
    (Success "/a/x.pdf" "x.pdf" "bk" 10 "application/pdf" "gs://bk/x.pdf" None
       "2024-01-01T00:00:00")
  = without_timestamp
      (Success "/a/x.pdf" "x.pdf" "bk" 10 "application/pdf" "gs://bk/x.pdf"
         None "2025-06-01T12:00:00").
Proof.
  apply (success_up_to_timestamp posix cloud "bk" "/a/x.pdf" None None None
           false true empty_service later_service);
    vm_compute; reflexivity.
Defined.

Lemma write_payload_witness :
  "/a/x.pdf" = str posix (source_file posix "/a/x.pdf") /\
  (forall c, Some "text/csv" = Some c -> "text/csv" = c) /\
  (Some "text/csv" = None ->
   guess_type posix (str posix (source_file posix "/a/x.pdf")) = None ->
   "text/csv" = "application/octet-stream") /\
  ((Some [] : metadata_t) = Some [] -> (None : metadata_t) = None) /\
  (forall kv rest,
      (Some [] : metadata_t) = Some (kv :: rest) ->
      (None : metadata_t) = Some []).
Proof.
  apply (write_payload posix cloud "bk" "/a/x.pdf" None (Some "text/csv")
           (Some []) false true empty_service "bk" "x.pdf" "/a/x.pdf"
           "text/csv" None None (inr tt)).
  vm_compute. left. reflexivity.
Defined.

(** A file the MIME table does not know goes out as binary. *)
Example unknown_type_is_binary :
  trace_of (GCSUploader.upload_file collision_host cloud "bk" "/d/a/b" None
              None None false true empty_service)
  = [EvUpload "bk" "b" "/d/a/b" "application/octet-stream" None None (inr tt)].
Proof. vm_compute. reflexivity. Qed.

Lemma directory_requests_target_discovered_files_witness :
  exists f,
    In f [mkPath "/" ["a"; "b"; "c.txt"]; mkPath "/" ["a"; "sub"; "z.txt"]] /\
    event_target
      (EvUpload "bk" "docs/sub/z.txt" "/a/sub/z.txt" "text/plain" None None
         (inr tt))
    = Some ("bk",
            GCSUploader.destination_of posix "docs"
              (relative_path (resolve posix (parse_path posix "/a")) f)).
Proof.
  apply (directory_requests_target_discovered_files posix cloud "bk" "/a"
           "docs" "*.txt" true None None false true
           [mkPath "/" ["a"; "b"; "c.txt"]; mkPath "/" ["a"; "sub"; "z.txt"]]
           empty_service).
  - vm_compute. reflexivity.
  - vm_compute. reflexivity.
  - vm_compute. reflexivity.
  - vm_compute. right. left. reflexivity.
Defined.

Lemma writes_and_successes_witness :
  List.length
    (filter is_upload
       (trace_of (GCSUploader.upload_directory posix cloud "bk" "/a" "docs" "*"
                    false None None false true flaky_service))) <= 3 /\
  List.length
    (filter accepted_write
       (trace_of (GCSUploader.upload_directory posix cloud "bk" "/a" "docs" "*"
                    false None None false true flaky_service)))
  = 2.
Proof.
  destruct (writes_and_successes posix cloud "bk" "/a" "docs" "*" false None
              None false true
              [mkPath "/" ["a"; "x.pdf"]; mkPath "/" ["a"; "x.json"];
               mkPath "/" ["a"; "alias.pdf"]] flaky_service)
    as [H1 H2]; try (vm_compute; reflexivity).
  split; [exact H1|].
  rewrite (H2 eq_refl
             [ Success "/a/x.pdf" "docs/x.pdf" "bk" 10 "application/pdf"
                 "gs://bk/docs/x.pdf" None "2024-01-01T00:00:00";
               Error "/a/x.json" "503 Service Unavailable";
               Success "/a/alias.pdf" "docs/alias.pdf" "bk" 9 "application/pdf"
                 "gs://bk/docs/alias.pdf" None "2024-01-01T00:00:00" ]).
  - reflexivity.
  - vm_compute. reflexivity.
Defined.

Lemma rejected_pattern_aborts_the_batch_witness :
  Cli.main posix cloud
    (Args.mk "bk" (Some "/a") None None false "/abs/*.pdf" None false false
       false false None false) empty_service
  = (Return 1, empty_service, []).
Proof.
  apply (rejected_pattern_aborts_the_batch posix cloud
           (Args.mk "bk" (Some "/a") None None false "/abs/*.pdf" None false
              false false false None false)
           "/a" empty_service empty_service
           (mkExn NotImplementedError "Non-relative patterns are unsupported"));
    try (vm_compute; reflexivity); discriminate.
Defined.

(** An empty pattern: rejected by [glob], accepted by [rglob]. *)
Example empty_pattern :
  GCSUploader.discover posix a "" false
  = inl (mkExn ValueError "Unacceptable pattern: ''") /\
  GCSUploader.discover posix a "" true = inr [].
Proof. vm_compute. auto. Qed.

Lemma recursive_discovery_has_no_duplicates_witness :
  NoDup [mkPath "/" ["a"; "x.pdf"]; mkPath "/" ["a"; "alias.pdf"];
         mkPath "/" ["a"; "sub"; "y.pdf"]].
Proof.
  apply (recursive_discovery_has_no_duplicates posix a "*.pdf").
  vm_compute. reflexivity.
Defined.

(** Distinct discovered paths that lead to one file: the pattern
    [../x.pdf] finds [/a/x.pdf] from each directory below [/a], and each of
    the three paths gets an entry of its own in the batch. *)
Example one_file_discovered_under_three_paths :
  GCSUploader.discover posix a "../x.pdf" true
  = inr [mkPath "/" ["a"; "b"; ".."; "x.pdf"];
         mkPath "/" ["a"; "sub"; ".."; "x.pdf"];
         mkPath "/" ["a"; "dir.pdf"; ".."; "x.pdf"]] /\
  map (resolve posix)
    [mkPath "/" ["a"; "b"; ".."; "x.pdf"];
     mkPath "/" ["a"; "sub"; ".."; "x.pdf"];
     mkPath "/" ["a"; "dir.pdf"; ".."; "x.pdf"]]
  = [mkPath "/" ["a"; "x.pdf"]; mkPath "/" ["a"; "x.pdf"];
     mkPath "/" ["a"; "x.pdf"]] /\
  option_map (@List.length UploadResult)
    (match result_of (GCSUploader.upload_directory posix cloud "bk" "/a" ""
                        "../x.pdf" true None None false true empty_service)
     with
     | inr results => Some results
     | inl _ => None
     end) = Some 3.
Proof. vm_compute. auto. Qed.

(** The parent of a linked directory is the parent of the target of the
    link, not the directory that holds the link. *)
Example parent_of_a_linked_directory :
  is_file posix (mkPath "/" ["a"; "lnk"; ".."; "x.pdf"]) = false /\
  is_file posix (mkPath "/" ["a"; "lnk"; ".."; "real.pdf"]) = true /\
  is_file posix (mkPath "/" ["a"; "lnk"; ".."; ".."; "a"; "x.pdf"]) = true /\
  is_file posix (mkPath "/" ["a"; "sub"; ".."; "x.pdf"]) = true /\
  is_dir posix (mkPath "/" [".."; ".."; "a"]) = true.
Proof. vm_compute. auto. Qed.

Lemma discovered_are_files_below_witness :
  Forall (fun f =>
            is_file posix f = true /\
            exists rel,
              rel <> [] /\
              f = mkPath "/" ("a" :: rel) /\
              relative_to posix f a = inr (mkPath "" rel))
    [mkPath "/" ["a"; "sub"; "y.pdf"]; mkPath "/" ["a"; "lnk"; "w.pdf"]].
Proof.
  apply (discovered_are_files_below posix a "*/*.pdf" false).
  - vm_compute. reflexivity.
  - vm_compute. reflexivity.
Defined.

Lemma destinations_do_not_collide_witness :
  ["b"; "c.txt"] = ["b"; "c.txt"].
Proof.
  apply (destinations_do_not_collide posix "docs" ["b"; "c.txt"] ["b"; "c.txt"]).
  - left. reflexivity.
  - discriminate.
  - discriminate.
  - repeat constructor.
  - repeat constructor.
  - reflexivity.
Defined.

(** A name with a backslash collides with the path it spells: both files
    go to [a/b], and the second write replaces the first. *)
Example backslash_names_collide :
  map result_destination
    (match result_of (GCSUploader.upload_directory collision_host cloud "bk"
                        "/d" "" "*" true None None false true empty_service)
     with
     | inr results => results
     | inl _ => []
     end) = [Some "a/b"; Some "a/b"] /\
  map obj_content
    (objects (state_of (GCSUploader.upload_directory collision_host cloud "bk"
                          "/d" "" "*" true None None false true empty_service)))
  = ["/d/a/b"].
Proof. vm_compute. auto. Qed.

Lemma credentials_are_checked_first_witness :
  Cli.main posix cloud
    (Args.mk "" None None (Some "/a/nothing.json") false "*" None false false
       false false None false) empty_service
  = (Return 1, empty_service, []).
Proof.
  apply (credentials_are_checked_first posix cloud).
  vm_compute. reflexivity.
Defined.

Lemma listing_sends_one_request_witness :
  Cli.main posix cloud
    (Args.mk "" (Some "/a/x.pdf") None None true "*" None false false true true
       None false) stocked_service
  = (Return 0, stocked_service, [EvListBuckets (inr ["bk"])]) /\
  Cli.main posix cloud
    (Args.mk "bk" (Some "/a/x.pdf") None None true "*" None false false false
       true (Some "x") false) stocked_service
  = (Return 0, stocked_service,
     [EvListBlobs "bk" (Some "x") 100
        (inr [mkBlobInfo "x.pdf" None None None])]).
Proof.
  split.
  - apply (proj1 (listing_sends_one_request posix cloud
                    (Args.mk "" (Some "/a/x.pdf") None None true "*" None false
                       false true true None false)
                    stocked_service stocked_service eq_refl)).
    reflexivity.
  - apply (proj2 (listing_sends_one_request posix cloud
                    (Args.mk "bk" (Some "/a/x.pdf") None None true "*" None
                       false false false true (Some "x") false)
                    stocked_service stocked_service eq_refl)).
    + reflexivity.
    + discriminate.
    + reflexivity.
Defined.

Lemma second_upload_without_overwrite_is_skipped_witness :
  GCSUploader.upload_file posix cloud "bk" "/a/x.pdf" None None None true false
    (state_of (GCSUploader.upload_file posix cloud "bk" "/a/x.pdf" None None
                 None false true empty_service))
  = (inr (Skipped "blob_exists" "x.pdf"),
     state_of (GCSUploader.upload_file posix cloud "bk" "/a/x.pdf" None None
                 None false true empty_service),
     [EvExists "bk" "x.pdf" (inr true)]).
Proof.
  apply (second_upload_without_overwrite_is_skipped posix "bk" "/a/x.pdf" None
           None None empty_service true); vm_compute; reflexivity.
Defined.

Lemma summary_adds_up_witness :
  successful
    [ Success "/a/x.pdf" "docs/x.pdf" "bk" 10 "application/pdf"
        "gs://bk/docs/x.pdf" None "2024-01-01T00:00:00";
      Error "/a/x.json" "503 Service Unavailable";
      Success "/a/alias.pdf" "docs/alias.pdf" "bk" 9 "application/pdf"
        "gs://bk/docs/alias.pdf" None "2024-01-01T00:00:00" ]
  + skipped
      [ Success "/a/x.pdf" "docs/x.pdf" "bk" 10 "application/pdf"
          "gs://bk/docs/x.pdf" None "2024-01-01T00:00:00";
        Error "/a/x.json" "503 Service Unavailable";
        Success "/a/alias.pdf" "docs/alias.pdf" "bk" 9 "application/pdf"
          "gs://bk/docs/alias.pdf" None "2024-01-01T00:00:00" ]
  + failed
      [ Success "/a/x.pdf" "docs/x.pdf" "bk" 10 "application/pdf"
          "gs://bk/docs/x.pdf" None "2024-01-01T00:00:00";
        Error "/a/x.json" "503 Service Unavailable";
        Success "/a/alias.pdf" "docs/alias.pdf" "bk" 9 "application/pdf"
          "gs://bk/docs/alias.pdf" None "2024-01-01T00:00:00" ]
  = 3.
Proof.
  apply (summary_adds_up posix cloud "bk" "/a" "docs" "*" false None None false
           true
           [mkPath "/" ["a"; "x.pdf"]; mkPath "/" ["a"; "x.json"];
            mkPath "/" ["a"; "alias.pdf"]] flaky_service);
    vm_compute; reflexivity.
Defined.

End MoreRuns.
